(** * Microsoft 365 roadmap MCP server: filter sanitizer, result cache,
      upstream fetcher and the eight tool handlers.

    Shallow embedding of the improved server source (the file with
    [sanitizeODataFilter], [fetchWithTimeout] and the in-memory [cache]).

    Conventions.
    - A JavaScript string is a sequence of UTF-16 code units; the model
      covers the code units below 256, written as [string] (one [ascii] per
      code unit).
    - A JavaScript number that a caller supplies is a [Js.number]: NaN, an
      infinity, or a real [m * 2^e] (every finite double has this form;
      [-0] is not told from [0], which no result of the server shows).  The
      sum of two numbers is rounded as a double is.  Lengths, counts and the
      readings of [Date.now()] are integers, written as [Z].
    - A successful upstream body carries an array of roadmap items under
      [value], or no [value]; see [Response].
    - A thrown value is an [Exn]; a computation that can throw returns a
      [Result]. *)

From Stdlib Require Import ZArith NArith List Bool Ascii String Lia.
From Stdlib Require Import Numbers.DecimalString.
From Stdlib Require DecimalZ DecimalPos.
Import ListNotations.

Open Scope string_scope.
Open Scope Z_scope.

(* ------------------------------------------------------------------ *)
(** ** Code units and strings *)

Module Js.

Definition code (c : ascii) : N := N_of_ascii c.

Definition inRange (lo hi : N) (n : N) : bool := ((lo <=? n) && (n <=? hi))%N.

(** Members of the [\w] class of a non-unicode regular expression. *)
Definition isWordChar (c : ascii) : bool :=
  let n := code c in
  inRange 97 122 n || inRange 65 90 n || inRange 48 57 n || (n =? 95)%N.

(** WhiteSpace and LineTerminator code units below 256, as removed by
    [String.prototype.trim]: TAB, LF, VT, FF, CR, SP, NBSP. *)
Definition isWhiteSpace (c : ascii) : bool :=
  let n := code c in
  inRange 9 13 n || (n =? 32)%N || (n =? 160)%N.

(** [toUpperCase] of a one-unit string, as a list of code units (the result
    may leave the range below 256, or have two units). *)
Definition toUpperCaseUnit (n : N) : list N :=
  if inRange 97 122 n then [n - 32]%N
  else if (n =? 181)%N then [924]%N
  else if (n =? 223)%N then [83; 83]%N
  else if inRange 224 254 n && negb (n =? 247)%N then [n - 32]%N
  else if (n =? 255)%N then [376]%N
  else [n].

(** Canonicalize of the regular expression semantics, for a pattern with
    the [i] flag and without the [u] flag. *)
Definition canonicalize (c : ascii) : N :=
  let ch := code c in
  match toUpperCaseUnit ch with
  | [cu] => if (128 <=? ch)%N && (cu <? 128)%N then ch else cu
  | _ => ch
  end.

(** [toLowerCase] on one code unit below 256. *)
Definition toLowerCaseChar (c : ascii) : ascii :=
  let n := code c in
  if inRange 65 90 n then ascii_of_N (n + 32)
  else if inRange 192 222 n && negb (n =? 215)%N then ascii_of_N (n + 32)
  else c.

Fixpoint toLowerCase (s : string) : string :=
  match s with
  | EmptyString => EmptyString
  | String c s' => String (toLowerCaseChar c) (toLowerCase s')
  end.

(** [s.replace(/[cs]/g, '')]: every code unit satisfying [p] is removed. *)
Fixpoint removeAll (p : ascii -> bool) (s : string) : string :=
  match s with
  | EmptyString => EmptyString
  | String c s' => if p c then removeAll p s' else String c (removeAll p s')
  end.

(** [s.replace(/c/g, by)]. *)
Fixpoint replaceAll (c : ascii) (by_ : string) (s : string) : string :=
  match s with
  | EmptyString => EmptyString
  | String d s' =>
      if Ascii.eqb d c then by_ ++ replaceAll c by_ s'
      else String d (replaceAll c by_ s')
  end.

Fixpoint trimStart (s : string) : string :=
  match s with
  | EmptyString => EmptyString
  | String c s' => if isWhiteSpace c then trimStart s' else s
  end.

Fixpoint trimEnd (s : string) : string :=
  match s with
  | EmptyString => EmptyString
  | String c s' =>
      match trimEnd s' with
      | EmptyString => if isWhiteSpace c then EmptyString else String c EmptyString
      | t => String c t
      end
  end.

Definition trim (s : string) : string := trimEnd (trimStart s).

(** [s.includes(t)]. *)
Fixpoint includes (s t : string) : bool :=
  String.prefix t s ||
  match s with
  | EmptyString => false
  | String _ s' => includes s' t
  end.

(** Truthiness of a string. *)
Definition truthy (s : string) : bool := negb (s =? "")%string.

(** Template-literal interpolation of an integer. *)
Definition showZ (z : Z) : string := NilZero.string_of_int (Z.to_int z).

(** *** Numbers *)

(** [Finite m e] is the real number [m * 2^e]. *)
Inductive number : Type :=
| NaN
| Infinity (negative : bool)
| Finite (m e : Z).

Definition ofZ (z : Z) : number := Finite z 0.

Definition isNaN (x : number) : bool :=
  match x with NaN => true | _ => false end.

(** Comparison of [m1 * 2^e1] with [m2 * 2^e2]. *)
Definition compareFinite (m1 e1 m2 e2 : Z) : comparison :=
  let e0 := Z.min e1 e2 in
  Z.compare (m1 * 2 ^ (e1 - e0)) (m2 * 2 ^ (e2 - e0)).

(** [x < y] *)
Definition ltb (x y : number) : bool :=
  match x, y with
  | NaN, _ => false
  | _, NaN => false
  | Infinity nx, Infinity ny => nx && negb ny
  | Infinity nx, Finite _ _ => nx
  | Finite _ _, Infinity ny => negb ny
  | Finite m1 e1, Finite m2 e2 =>
      match compareFinite m1 e1 m2 e2 with Lt => true | _ => false end
  end.

(** [x <= y] *)
Definition leb (x y : number) : bool :=
  match x, y with
  | NaN, _ => false
  | _, NaN => false
  | Infinity nx, Infinity ny => nx || negb ny
  | Infinity nx, Finite _ _ => nx
  | Finite _ _, Infinity ny => negb ny
  | Finite m1 e1, Finite m2 e2 =>
      match compareFinite m1 e1 m2 e2 with Gt => false | _ => true end
  end.

(** [x == y] on numbers. *)
Definition eqb (x y : number) : bool :=
  match x, y with
  | Infinity nx, Infinity ny => Bool.eqb nx ny
  | Finite m1 e1, Finite m2 e2 =>
      match compareFinite m1 e1 m2 e2 with Eq => true | _ => false end
  | _, _ => false
  end.

(** [a / 2^k] rounded to the nearest integer, a tie to the even one
    ([0 <= a], [0 < k]). *)
Definition roundHalfEven (a k : Z) : Z :=
  let d := 2 ^ k in
  let q := a / d in
  match Z.compare (2 * (a mod d)) d with
  | Lt => q
  | Gt => q + 1
  | Eq => if Z.even q then q else q + 1
  end.

(** The double nearest to [m * 2^e] (round to nearest, ties to even): 53
    significant bits, the exponent of the last bit not below -1074, and an
    infinity from [2^1024] on. *)
Definition roundDouble (m e : Z) : number :=
  if m =? 0 then Finite m e
  else
    let a := Z.abs m in
    let top := Z.log2 a + e in
    let lsb := Z.max (top - 52) (-1074) in
    if lsb <=? e then
      if 1024 <=? top then Infinity (m <? 0) else Finite m e
    else
      let r := roundHalfEven a (lsb - e) in
      if (negb (r =? 0)) && (1024 <=? Z.log2 r + lsb) then Infinity (m <? 0)
      else Finite (Z.sgn m * r) lsb.

(** [x + y] *)
Definition add (x y : number) : number :=
  match x, y with
  | NaN, _ => NaN
  | _, NaN => NaN
  | Infinity nx, Infinity ny => if Bool.eqb nx ny then Infinity nx else NaN
  | Infinity nx, Finite _ _ => Infinity nx
  | Finite _ _, Infinity ny => Infinity ny
  | Finite m1 e1, Finite m2 e2 =>
      let e0 := Z.min e1 e2 in
      roundDouble (m1 * 2 ^ (e1 - e0) + m2 * 2 ^ (e2 - e0)) e0
  end.

(** [Math.min(x, y)] and [Math.max(x, y)]. *)
Definition min (x y : number) : number :=
  if isNaN x || isNaN y then NaN else if ltb y x then y else x.

Definition max (x y : number) : number :=
  if isNaN x || isNaN y then NaN else if ltb x y then y else x.

(** ToIntegerOrInfinity: NaN gives 0, a finite number loses its fraction. *)
Inductive integerOrInfinity : Type :=
| NegInfinity
| Integer (i : Z)
| PosInfinity.

Definition truncate (m e : Z) : Z :=
  if 0 <=? e then m * 2 ^ e else Z.quot m (2 ^ (- e)).

Definition toIntegerOrInfinity (x : number) : integerOrInfinity :=
  match x with
  | NaN => Integer 0
  | Infinity true => NegInfinity
  | Infinity false => PosInfinity
  | Finite m e => Integer (truncate m e)
  end.

(** [Array.prototype.slice(start, end)]. *)
Definition relativeIndex (len : Z) (relative : integerOrInfinity) : Z :=
  match relative with
  | NegInfinity => 0
  | Integer i => if i <? 0 then Z.max (len + i) 0 else Z.min i len
  | PosInfinity => len
  end.

Definition slice {A : Type} (l : list A) (start end_ : number) : list A :=
  let len := Z.of_nat (List.length l) in
  let k := relativeIndex len (toIntegerOrInfinity start) in
  let final := relativeIndex len (toIntegerOrInfinity end_) in
  firstn (Z.to_nat (final - k)) (skipn (Z.to_nat k) l).

(** *** encodeURIComponent, for code units below 256 *)

Definition hexDigit (n : N) : ascii :=
  if (n <? 10)%N then ascii_of_N (48 + n) else ascii_of_N (55 + n).

Definition percentEncode (byte : N) (k : string) : string :=
  String "%" (String (hexDigit (byte / 16)) (String (hexDigit (byte mod 16)) k)).

Definition isUriUnreserved (c : ascii) : bool :=
  let n := code c in
  inRange 97 122 n || inRange 65 90 n || inRange 48 57 n ||
  existsb (N.eqb n) [45; 95; 46; 33; 126; 42; 39; 40; 41]%N.

Fixpoint encodeURIComponent (s : string) : string :=
  match s with
  | EmptyString => EmptyString
  | String c s' =>
      let n := code c in
      let k := encodeURIComponent s' in
      if isUriUnreserved c then String c k
      else if (n <? 128)%N then percentEncode n k
      else percentEncode (192 + n / 64) (percentEncode (128 + n mod 64) k)
  end.

(** *** Regular expressions

    The fragment used by the server: literal characters, sequencing,
    alternation and the [\b] assertion.  A match state is the code unit just
    before the current position (if any) and the rest of the input;
    [run] lists the states a backtracking matcher can end in, in priority
    order. *)

Inductive regex : Type :=
| Empty
| Char (p : ascii)
| Seq (r1 r2 : regex)
| Alt (r1 r2 : regex)
| WordBoundary.

Definition state : Type := option ascii * string.

Definition isWordCharOpt (o : option ascii) : bool :=
  match o with Some c => isWordChar c | None => false end.

Definition head (s : string) : option ascii :=
  match s with String c _ => Some c | EmptyString => None end.

Definition charMatches (ignoreCase : bool) (p c : ascii) : bool :=
  if ignoreCase then (canonicalize c =? canonicalize p)%N else Ascii.eqb c p.

Fixpoint run (ignoreCase : bool) (r : regex) (st : state) : list state :=
  match r with
  | Empty => [st]
  | Char p =>
      match snd st with
      | String c s' => if charMatches ignoreCase p c then [(Some c, s')] else []
      | EmptyString => []
      end
  | Seq r1 r2 => flat_map (run ignoreCase r2) (run ignoreCase r1 st)
  | Alt r1 r2 => run ignoreCase r1 st ++ run ignoreCase r2 st
  | WordBoundary =>
      if xorb (isWordCharOpt (fst st)) (isWordCharOpt (head (snd st)))
      then [st] else []
  end.

Definition matchesAt (ignoreCase : bool) (r : regex) (st : state) : bool :=
  match run ignoreCase r st with [] => false | _ :: _ => true end.

(** The search of [RegExp.prototype.test]: every start index from 0 to the
    length of the input is tried. *)
Fixpoint search (ignoreCase : bool) (r : regex) (prev : option ascii) (s : string) : bool :=
  matchesAt ignoreCase r (prev, s) ||
  match s with
  | EmptyString => false
  | String c s' => search ignoreCase r (Some c) s'
  end.

Record RegExp : Type := { source : regex; ignoreCase : bool }.

Definition test (re : RegExp) (s : string) : bool :=
  search (ignoreCase re) (source re) None s.

Fixpoint literal (w : string) : regex :=
  match w with
  | EmptyString => Empty
  | String c w' => Seq (Char c) (literal w')
  end.

End Js.

(* ------------------------------------------------------------------ *)
(** ** Exceptions *)

(** A thrown value: an [Error] with its message, or anything else. *)
Inductive Exn : Type :=
| JsError (message : string)
| JsThrown.

Inductive Result (A : Type) : Type :=
| Ok (a : A)
| Throw (e : Exn).
Arguments Ok {A} a.
Arguments Throw {A} e.

(** [error instanceof Error ? error.message : fallback]. *)
Definition messageOr (fallback : string) (e : Exn) : string :=
  match e with JsError m => m | JsThrown => fallback end.

(* ------------------------------------------------------------------ *)
(** ** Constants *)

Definition M365_API_BASE_V2 : string :=
  "https://www.microsoft.com/releasecommunications/api/v2/m365".
Definition API_TIMEOUT_MS : Z := 30000.
Definition MAX_CACHE_AGE_MS : Z := 5 * 60 * 1000.
Definition MAX_RESULTS_LIMIT : Z := 1000.

(* ------------------------------------------------------------------ *)
(** ** Filter sanitizer *)

(** The group [(drop|delete|insert|update|exec|execute|script|javascript)]. *)
Definition dangerousGroup : Js.regex :=
  Js.Alt (Js.literal "drop")
    (Js.Alt (Js.literal "delete")
       (Js.Alt (Js.literal "insert")
          (Js.Alt (Js.literal "update")
             (Js.Alt (Js.literal "exec")
                (Js.Alt (Js.literal "execute")
                   (Js.Alt (Js.literal "script") (Js.literal "javascript"))))))).

(** [/\b(drop|delete|insert|update|exec|execute|script|javascript)\b/i] *)
Definition dangerousPatterns : Js.RegExp :=
  {| Js.source := Js.Seq Js.WordBoundary (Js.Seq dangerousGroup Js.WordBoundary);
     Js.ignoreCase := true |}.

Definition isSemicolonOrBackslash (c : ascii) : bool :=
  Ascii.eqb c ";" || Ascii.eqb c "\".

(** The [sanitized] constant of [sanitizeODataFilter]. *)
Definition stripped (filter : string) : string :=
  Js.trim (Js.removeAll isSemicolonOrBackslash filter).

Definition sanitizeODataFilter (filter : string) : Result string :=
  let sanitized := stripped filter in
  if Js.test dangerousPatterns sanitized
  then Throw (JsError "Invalid filter: potentially dangerous keywords detected")
  else Ok sanitized.

(* ------------------------------------------------------------------ *)
(** ** Data model *)

Record RoadmapItem : Type := {
  id : string;
  title : option string;
  description : option string;
  category : option string;
  platform : option (list string);
  releasePhase : option string;
  generalAvailability : option string;
  publicPreview : option string;
  updated : option string
}.

Record CacheEntry : Type := {
  data : list RoadmapItem;
  timestamp : Z;
  filter : option string
}.

(** A JavaScript [Map] with string keys: entries in insertion order, one
    entry per key. *)
Module JsMap.
Section WithValue.
Context {V : Type}.

Definition t : Type := list (string * V).

Definition empty : t := [].

Fixpoint get (k : string) (m : t) : option V :=
  match m with
  | [] => None
  | (k', v) :: m' => if (k' =? k)%string then Some v else get k m'
  end.

(** An existing key keeps its place; a new key goes last. *)
Fixpoint set (k : string) (v : V) (m : t) : t :=
  match m with
  | [] => [(k, v)]
  | (k', v') :: m' =>
      if (k' =? k)%string then (k, v) :: m' else (k', v') :: set k v m'
  end.

Fixpoint delete (k : string) (m : t) : t :=
  match m with
  | [] => []
  | (k', v') :: m' =>
      if (k' =? k)%string then m' else (k', v') :: delete k m'
  end.

Definition size (m : t) : Z := Z.of_nat (List.length m).

Definition keys (m : t) : list string := map fst m.

Definition wf (m : t) : Prop := NoDup (keys m).
End WithValue.
Arguments t V : clear implicits.
End JsMap.

Definition Cache : Type := JsMap.t CacheEntry.

(** The settled state of the [fetch] promise, and the parts of the response
    the server reads.  [json] is the outcome of [response.json()] followed by
    the read of the [value] property: [Ok None] is a body without a (truthy)
    [value], [Ok (Some items)] a body whose [value] is an array of items.  The
    code does not check that [value] is an array; a body with another truthy
    [value] is not covered. *)
Record Response : Type := {
  ok : bool;
  status : Z;
  statusText : string;
  text : Result string;
  json : Result (option (list RoadmapItem))
}.

Inductive Settled : Type :=
| Resolved (r : Response)
| Rejected (e : Exn)
| Aborted.

(** What a call observes of its environment: the two readings of
    [Date.now()] (at the cache check, and at the cache update after the
    response arrived) and the upstream service. *)
Record World : Type := {
  now_check : Z;
  now_update : Z;
  fetch : string -> Settled
}.

(* ------------------------------------------------------------------ *)
(** ** Upstream fetcher and cache *)

Definition fetchWithTimeout (w : World) (url : string) (timeout : Z) : Result Response :=
  match fetch w url with
  | Resolved response => Ok response
  | Aborted => Throw (JsError ("Request timeout after " ++ Js.showZ timeout ++ "ms"))
  | Rejected error => Throw error
  end.

(** [cached && (Date.now() - cached.timestamp) < MAX_CACHE_AGE_MS] *)
Definition cacheLookup (now : Z) (cacheKey : string) (cache : Cache)
  : option (list RoadmapItem) :=
  match JsMap.get cacheKey cache with
  | Some cached =>
      if now - timestamp cached <? MAX_CACHE_AGE_MS then Some (data cached) else None
  | None => None
  end.

(** [cache.set] followed by the cleanup of old entries. *)
Definition cacheStore (cacheKey : string) (entry : CacheEntry) (cache : Cache) : Cache :=
  let cache1 := JsMap.set cacheKey entry cache in
  if 50 <? JsMap.size cache1 then
    match JsMap.keys cache1 with
    | k0 :: _ => JsMap.delete k0 cache1
    | [] => cache1
    end
  else cache1.

Definition requestUrl (sanitizedFilter : option string) : string :=
  match sanitizedFilter with
  | Some f =>
      if Js.truthy f
      then M365_API_BASE_V2 ++ "?$filter=" ++ Js.encodeURIComponent f
      else M365_API_BASE_V2
  | None => M365_API_BASE_V2
  end.

(** The request, the status check and the decoding. *)
Definition fetchItems (w : World) (sanitizedFilter : option string)
  : Result (list RoadmapItem) :=
  match fetchWithTimeout w (requestUrl sanitizedFilter) API_TIMEOUT_MS with
  | Throw e => Throw e
  | Ok response =>
      if negb (ok response) then
        let errorText :=
          match text response with Ok t => t | Throw _ => "Unknown error" end in
        Throw (JsError ("API request failed: " ++ Js.showZ (status response) ++ " "
                        ++ statusText response ++ " - " ++ errorText))
      else
        match json response with
        | Throw e => Throw e
        | Ok value => Ok (match value with Some items => items | None => [] end)
        end
  end.

(** [filter ? sanitizeODataFilter(filter) : undefined] *)
Definition sanitizeOptional (filter : option string) : Result (option string) :=
  match filter with
  | Some f =>
      if Js.truthy f then
        match sanitizeODataFilter f with
        | Ok s => Ok (Some s)
        | Throw e => Throw e
        end
      else Ok None
  | None => Ok None
  end.

(** [sanitizedFilter || 'all'] *)
Definition cacheKeyOf (sanitizedFilter : option string) : string :=
  match sanitizedFilter with
  | Some f => if Js.truthy f then f else "all"
  | None => "all"
  end.

Definition fetchRoadmapItemsV2 (w : World) (filter : option string) (cache : Cache)
  : Result (list RoadmapItem) * Cache :=
  match sanitizeOptional filter with
  | Throw e => (Throw e, cache)
  | Ok sanitizedFilter =>
      let cacheKey := cacheKeyOf sanitizedFilter in
      match cacheLookup (now_check w) cacheKey cache with
      | Some items => (Ok items, cache)
      | None =>
          match fetchItems w sanitizedFilter with
          | Throw e => (Throw e, cache)
          | Ok items =>
              (Ok items,
               cacheStore cacheKey
                 {| data := items; timestamp := now_update w; filter := sanitizedFilter |}
                 cache)
          end
      end
  end.

(* ------------------------------------------------------------------ *)
(** ** Tool results *)

#[local] Set Warnings "-register-all".
Inductive JsValue : Type :=
| Undefined
| Number (x : Js.number)
| Str (s : string)
| Bool (b : bool)
| Item (i : RoadmapItem)
| Items (l : list RoadmapItem)
| Obj (fields : list (string * JsValue)).
#[local] Set Warnings "register-all".

(** The text of a result: a plain string, or [JSON.stringify(v, null, 2)]. *)
Inductive Content : Type :=
| Text (s : string)
| Json (v : JsValue).

Record ToolResult : Type := {
  content : Content;
  isError : bool
}.

(** A number that is an integer. *)
Definition Num (n : Z) : JsValue := Number (Js.ofZ n).

Definition count {A : Type} (l : list A) : JsValue := Num (Z.of_nat (List.length l)).

Definition optStr (o : option string) : JsValue :=
  match o with Some s => Str s | None => Undefined end.

Definition success (v : JsValue) : ToolResult := {| content := Json v; isError := false |}.

(** [createMCPError(message, code, data)] *)
Definition createMCPError (message : string) (code : Z) (data_ : JsValue) : JsValue :=
  Obj [("code", Num code); ("message", Str message); ("data", data_)].

(** The catch block of [get_roadmap_items] and [filter_by_product]. *)
Definition structuredError (fallback : string) (args : JsValue) (error : Exn) : ToolResult :=
  {| content := Json (createMCPError (messageOr fallback error) (-32000) args);
     isError := true |}.

(** The catch block of the other handlers. *)
Definition plainError (error : Exn) : ToolResult :=
  {| content := Text ("Error: " ++ messageOr "Unknown error" error); isError := true |}.

Definition orDefault (d : Z) (o : option Js.number) : Js.number :=
  match o with Some n => n | None => Js.ofZ d end.

(* ------------------------------------------------------------------ *)
(** ** Tool handlers

    Each handler takes its (schema-checked) arguments, the world and the
    cache, and returns the tool result and the cache it leaves.  An optional
    argument is an [option]; the destructuring defaults are applied first. *)

Definition get_roadmap_items (limit offset : option Js.number) (filter : option string)
    (w : World) (cache : Cache) : ToolResult * Cache :=
  let limit := orDefault 100 limit in
  let offset := orDefault 0 offset in
  let validatedLimit := Js.min limit (Js.ofZ MAX_RESULTS_LIMIT) in
  let validatedOffset := Js.max (Js.ofZ 0) offset in
  match fetchRoadmapItemsV2 w filter cache with
  | (Ok items, cache') =>
      let paginatedItems :=
        Js.slice items validatedOffset (Js.add validatedOffset validatedLimit) in
      (success (Obj [("total", count items);
                     ("returned", count paginatedItems);
                     ("offset", Number validatedOffset);
                     ("limit", Number validatedLimit);
                     ("hasMore", Bool (Js.ltb (Js.add validatedOffset validatedLimit)
                                         (Js.ofZ (Z.of_nat (List.length items)))));
                     ("items", Items paginatedItems)]),
       cache')
  | (Throw error, cache') =>
      (structuredError "Failed to fetch roadmap items"
         (Obj [("filter", optStr filter); ("limit", Number limit);
               ("offset", Number offset)])
         error,
       cache')
  end.

(** [item.title?.toLowerCase().includes(searchTerm)] *)
Definition fieldIncludes (field : option string) (searchTerm : string) : bool :=
  match field with
  | Some s => Js.includes (Js.toLowerCase s) searchTerm
  | None => false
  end.

Definition matchesKeyword (searchTerm : string) (item : RoadmapItem) : bool :=
  fieldIncludes (title item) searchTerm || fieldIncludes (description item) searchTerm.

Definition search_roadmap (keyword : string) (limit : option Js.number)
    (w : World) (cache : Cache) : ToolResult * Cache :=
  let limit := orDefault 20 limit in
  match fetchRoadmapItemsV2 w None cache with
  | (Ok items, cache') =>
      let searchTerm := Js.toLowerCase keyword in
      let filteredItems :=
        Js.slice (List.filter (matchesKeyword searchTerm) items) (Js.ofZ 0) limit in
      (success (Obj [("keyword", Str keyword);
                     ("found", count filteredItems);
                     ("items", Items filteredItems)]),
       cache')
  | (Throw error, cache') => (plainError error, cache')
  end.

Definition get_roadmap_item (id : string) (w : World) (cache : Cache)
  : ToolResult * Cache :=
  let filter := "id eq " ++ id in
  match fetchRoadmapItemsV2 w (Some filter) cache with
  | (Ok items, cache') =>
      match items with
      | [] =>
          ({| content := Text ("No roadmap item found with ID: " ++ id);
              isError := true |}, cache')
      | item :: _ => (success (Item item), cache')
      end
  | (Throw error, cache') => (plainError error, cache')
  end.

(** [product.replace(/'/g, "''")] *)
Definition escapeQuotes (value : string) : string := Js.replaceAll "'" "''" value.

(** The [filter] constant of [filter_by_product]. *)
Definition productFilter (product : string) : string :=
  "products/any(p:p eq '" ++ escapeQuotes product ++ "')".

Definition filter_by_product (product : string) (limit : option Js.number)
    (w : World) (cache : Cache) : ToolResult * Cache :=
  let limit := orDefault 100 limit in
  match fetchRoadmapItemsV2 w (Some (productFilter product)) cache with
  | (Ok items, cache') =>
      let validatedLimit := Js.min limit (Js.ofZ MAX_RESULTS_LIMIT) in
      let limitedItems := Js.slice items (Js.ofZ 0) validatedLimit in
      (success (Obj [("product", Str product);
                     ("total", count items);
                     ("returned", count limitedItems);
                     ("hasMore", Bool (Z.of_nat (List.length limitedItems)
                                        <? Z.of_nat (List.length items)));
                     ("items", Items limitedItems)]),
       cache')
  | (Throw error, cache') =>
      (structuredError "Failed to filter by product"
         (Obj [("product", Str product); ("limit", Number limit)])
         error,
       cache')
  end.

Inductive Phase : Type :=
| GeneralAvailability | PublicPreview | InDevelopment | RollingOut.

Definition phaseName (phase : Phase) : string :=
  match phase with
  | GeneralAvailability => "General Availability"
  | PublicPreview => "Public Preview"
  | InDevelopment => "In Development"
  | RollingOut => "Rolling Out"
  end.

(** The [filter] constant of [filter_by_release_phase]. *)
Definition phaseFilter (phase : Phase) : string :=
  "releaseRings/any(r:r eq '" ++ phaseName phase ++ "')".

Definition filter_by_release_phase (phase : Phase) (limit : option Js.number)
    (w : World) (cache : Cache) : ToolResult * Cache :=
  let limit := orDefault 100 limit in
  match fetchRoadmapItemsV2 w (Some (phaseFilter phase)) cache with
  | (Ok items, cache') =>
      let limitedItems := Js.slice items (Js.ofZ 0) limit in
      (success (Obj [("phase", Str (phaseName phase));
                     ("total", count items);
                     ("returned", count limitedItems);
                     ("items", Items limitedItems)]),
       cache')
  | (Throw error, cache') => (plainError error, cache')
  end.

Inductive Status : Type :=
| StatusInDevelopment | StatusRollingOut | StatusLaunched.

Definition statusName (status : Status) : string :=
  match status with
  | StatusInDevelopment => "In development"
  | StatusRollingOut => "Rolling out"
  | StatusLaunched => "Launched"
  end.

(** The [filter] constant of [filter_by_status]. *)
Definition statusFilter (status : Status) : string :=
  "status eq '" ++ statusName status ++ "'".

Definition filter_by_status (status : Status) (limit : option Js.number)
    (w : World) (cache : Cache) : ToolResult * Cache :=
  let limit := orDefault 100 limit in
  match fetchRoadmapItemsV2 w (Some (statusFilter status)) cache with
  | (Ok items, cache') =>
      let limitedItems := Js.slice items (Js.ofZ 0) limit in
      (success (Obj [("status", Str (statusName status));
                     ("total", count items);
                     ("returned", count limitedItems);
                     ("items", Items limitedItems)]),
       cache')
  | (Throw error, cache') => (plainError error, cache')
  end.

Inductive DateType : Type :=
| DateGeneralAvailability | DatePreview.

Definition dateTypeName (dateType : DateType) : string :=
  match dateType with
  | DateGeneralAvailability => "generalAvailability"
  | DatePreview => "preview"
  end.

(** The [field] and [filter] constants of [filter_by_date]. *)
Definition dateFilter (date : string) (dateType : DateType) : string :=
  let field :=
    match dateType with
    | DateGeneralAvailability => "generalAvailabilityDate"
    | DatePreview => "previewAvailabilityDate"
    end in
  field ++ " eq '" ++ date ++ "'".

Definition filter_by_date (date : string) (dateType : option DateType) (limit : option Js.number)
    (w : World) (cache : Cache) : ToolResult * Cache :=
  let dateType := match dateType with Some t => t | None => DateGeneralAvailability end in
  let limit := orDefault 100 limit in
  match fetchRoadmapItemsV2 w (Some (dateFilter date dateType)) cache with
  | (Ok items, cache') =>
      let limitedItems := Js.slice items (Js.ofZ 0) limit in
      (success (Obj [("date", Str date);
                     ("dateType", Str (dateTypeName dateType));
                     ("total", count items);
                     ("returned", count limitedItems);
                     ("items", Items limitedItems)]),
       cache')
  | (Throw error, cache') => (plainError error, cache')
  end.

Definition filter_roadmap (filter : string) (limit : option Js.number)
    (w : World) (cache : Cache) : ToolResult * Cache :=
  let limit := orDefault 100 limit in
  match fetchRoadmapItemsV2 w (Some filter) cache with
  | (Ok items, cache') =>
      let limitedItems := Js.slice items (Js.ofZ 0) limit in
      (success (Obj [("filter", Str filter);
                     ("total", count items);
                     ("returned", count limitedItems);
                     ("items", Items limitedItems)]),
       cache')
  | (Throw error, cache') => (plainError error, cache')
  end.

(** *** The registered tools and their input schemas *)

Inductive ToolCall : Type :=
| GetRoadmapItems (limit offset : option Js.number) (filter : option string)
| SearchRoadmap (keyword : string) (limit : option Js.number)
| GetRoadmapItem (id : string)
| FilterByProduct (product : string) (limit : option Js.number)
| FilterByReleasePhase (phase : Phase) (limit : option Js.number)
| FilterByStatus (status : Status) (limit : option Js.number)
| FilterByDate (date : string) (dateType : option DateType) (limit : option Js.number)
| FilterRoadmap (filter : string) (limit : option Js.number).

Definition callTool (call : ToolCall) : World -> Cache -> ToolResult * Cache :=
  match call with
  | GetRoadmapItems limit offset filter => get_roadmap_items limit offset filter
  | SearchRoadmap keyword limit => search_roadmap keyword limit
  | GetRoadmapItem id => get_roadmap_item id
  | FilterByProduct product limit => filter_by_product product limit
  | FilterByReleasePhase phase limit => filter_by_release_phase phase limit
  | FilterByStatus status limit => filter_by_status status limit
  | FilterByDate date dateType limit => filter_by_date date dateType limit
  | FilterRoadmap filter limit => filter_roadmap filter limit
  end.

Definition optAll {A : Type} (p : A -> bool) (o : option A) : bool :=
  match o with Some a => p a | None => true end.

Definition lengthZ (s : string) : Z := Z.of_nat (String.length s).

(** [z.number()] accepts every number but NaN (the infinities are numbers
    to it); [.min(b)] refuses a number below [b] and [.max(b)] a number above
    it.  None of the schemas asks for an integer. *)
Definition zNumber (x : Js.number) : bool := negb (Js.isNaN x).

Definition zMin (bound : Z) (x : Js.number) : bool := negb (Js.ltb x (Js.ofZ bound)).

Definition zMax (bound : Z) (x : Js.number) : bool := negb (Js.ltb (Js.ofZ bound) x).

(** The [inputSchema] of each tool. *)
Definition inputSchema (call : ToolCall) : bool :=
  match call with
  | GetRoadmapItems limit offset filter =>
      optAll (fun n => zNumber n && zMin 1 n && zMax MAX_RESULTS_LIMIT n) limit &&
      optAll (fun n => zNumber n && zMin 0 n) offset &&
      optAll (fun s => lengthZ s <=? 1000) filter
  | SearchRoadmap _ limit => optAll zNumber limit
  | GetRoadmapItem _ => true
  | FilterByProduct product limit =>
      (1 <=? lengthZ product) && (lengthZ product <=? 200) &&
      optAll (fun n => zNumber n && zMin 1 n && zMax MAX_RESULTS_LIMIT n) limit
  | FilterByReleasePhase _ limit => optAll zNumber limit
  | FilterByStatus _ limit => optAll zNumber limit
  | FilterByDate _ _ limit => optAll zNumber limit
  | FilterRoadmap _ limit => optAll zNumber limit
  end.

(** The filter expression a call hands to [fetchRoadmapItemsV2]. *)
Definition builtFilter (call : ToolCall) : option string :=
  match call with
  | GetRoadmapItems _ _ filter => filter
  | SearchRoadmap _ _ => None
  | GetRoadmapItem id => Some ("id eq " ++ id)
  | FilterByProduct product _ => Some (productFilter product)
  | FilterByReleasePhase phase _ => Some (phaseFilter phase)
  | FilterByStatus status _ => Some (statusFilter status)
  | FilterByDate date dateType _ =>
      Some (dateFilter date
              (match dateType with Some t => t | None => DateGeneralAvailability end))
  | FilterRoadmap filter _ => Some filter
  end.

(** Property lookup on an object value. *)
Fixpoint lookupField (name : string) (fields : list (string * JsValue)) : option JsValue :=
  match fields with
  | [] => None
  | (k, v) :: rest => if (k =? name)%string then Some v else lookupField name rest
  end.

Definition field (name : string) (r : ToolResult) : option JsValue :=
  match content r with
  | Json (Obj fields) => lookupField name fields
  | _ => None
  end.

Definition hasField (name : string) (r : ToolResult) : bool :=
  match field name r with Some _ => true | None => false end.

(* ------------------------------------------------------------------ *)
(** ** Metrics and the operational endpoints *)

Record ToolMetrics : Type := {
  calls : Z;
  errors : Z
}.

Module Requests.
Record t : Type := { total : Z; successful : Z; failed : Z }.
End Requests.

Module ApiCalls.
Record t : Type := { total : Z; cached : Z; failed : Z }.
End ApiCalls.

Record Metrics : Type := {
  requests : Requests.t;
  tools : JsMap.t ToolMetrics;
  apiCalls : ApiCalls.t;
  uptime : Z
}.

(** The [metrics] object as the module creates it, [Date.now()] reading
    [startedAt]. *)
Definition initialMetrics (startedAt : Z) : Metrics :=
  {| requests := {| Requests.total := 0; Requests.successful := 0; Requests.failed := 0 |};
     tools := JsMap.empty;
     apiCalls := {| ApiCalls.total := 0; ApiCalls.cached := 0; ApiCalls.failed := 0 |};
     uptime := startedAt |}.

Definition trackToolCall (toolName : string) (success : bool) (metrics : Metrics) : Metrics :=
  let toolMetrics :=
    match JsMap.get toolName (tools metrics) with
    | Some found => found
    | None => {| calls := 0; errors := 0 |}
    end in
  let toolMetrics :=
    {| calls := calls toolMetrics + 1;
       errors := if success then errors toolMetrics else errors toolMetrics + 1 |} in
  {| requests := requests metrics;
     tools := JsMap.set toolName toolMetrics (tools metrics);
     apiCalls := apiCalls metrics;
     uptime := uptime metrics |}.

Definition withRequests (r : Requests.t) (metrics : Metrics) : Metrics :=
  {| requests := r; tools := tools metrics; apiCalls := apiCalls metrics;
     uptime := uptime metrics |}.

(** [if (toolName) trackToolCall(toolName, success)], [toolName] being
    [req.body?.params?.name]. *)
Definition trackIfNamed (toolName : option string) (success : bool) (metrics : Metrics)
  : Metrics :=
  match toolName with
  | Some name => if Js.truthy name then trackToolCall name success metrics else metrics
  | None => metrics
  end.

(** What the [/mcp] route does to [metrics].  The route counts the request
    when it arrives, then awaits the transport; once the transport is done
    it counts a success, and when the transport throws it counts a failure
    (the writing of the response is not part of the model). *)
Inductive McpEvent : Type :=
| Received
| Handled (toolName : option string)
| Threw (toolName : option string).

Definition mcpStep (metrics : Metrics) (event : McpEvent) : Metrics :=
  let r := requests metrics in
  match event with
  | Received =>
      withRequests {| Requests.total := Requests.total r + 1;
                      Requests.successful := Requests.successful r;
                      Requests.failed := Requests.failed r |} metrics
  | Handled toolName =>
      trackIfNamed toolName true
        (withRequests {| Requests.total := Requests.total r;
                         Requests.successful := Requests.successful r + 1;
                         Requests.failed := Requests.failed r |} metrics)
  | Threw toolName =>
      trackIfNamed toolName false
        (withRequests {| Requests.total := Requests.total r;
                         Requests.successful := Requests.successful r;
                         Requests.failed := Requests.failed r + 1 |} metrics)
  end.

Definition mcpRun (events : list McpEvent) (metrics : Metrics) : Metrics :=
  fold_left mcpStep events metrics.

(** The request-logging middleware: [`req-${Date.now()}-${++requestCounter}`]
    and the counter it leaves. *)
Definition nextRequestId (now requestCounter : Z) : string * Z :=
  let requestCounter := requestCounter + 1 in
  ("req-" ++ Js.showZ now ++ "-" ++ Js.showZ requestCounter, requestCounter).

(** [POST /cache/clear]: the reported previous size and the cache left. *)
Definition cacheClear (cache : Cache) : Z * Cache :=
  (JsMap.size cache, JsMap.empty).

Module Stats.
Record entry : Type := {
  filter : string;
  itemCount : Z;
  age : Z;
  ageMinutes : Z
}.
Record t : Type := { size : Z; entries : list entry }.
End Stats.

(** [GET /cache/stats].  Every entry reads [Date.now()] twice; [clock k] is
    the reading of the [k]-th call made by the route. *)
Fixpoint statsEntries (clock : nat -> Z) (k : nat) (cache : Cache) : list Stats.entry :=
  match cache with
  | [] => []
  | (key, value) :: rest =>
      {| Stats.filter := key;
         Stats.itemCount := Z.of_nat (List.length (data value));
         Stats.age := clock k - timestamp value;
         Stats.ageMinutes := (clock (S k) - timestamp value) / 60000 |}
      :: statsEntries clock (S (S k)) rest
  end.

Definition cacheStats (clock : nat -> Z) (cache : Cache) : Stats.t :=
  {| Stats.size := JsMap.size cache; Stats.entries := statsEntries clock 0 cache |}.

(** [GET /health]: [uptime.seconds] and [uptime.formatted]. *)
Definition uptimeSeconds (now : Z) (metrics : Metrics) : Z :=
  (now - uptime metrics) / 1000.

Definition uptimeFormatted (now : Z) (metrics : Metrics) : string :=
  let s := uptimeSeconds now metrics in
  Js.showZ (s / 3600) ++ "h " ++ Js.showZ (Z.rem s 3600 / 60) ++ "m".

(* ------------------------------------------------------------------ *)
(** ** Vocabulary of the properties *)

(** The states of the cache the server can be in: one entry per key, at most
    50 entries. *)
Definition cacheOk (cache : Cache) : Prop :=
  JsMap.wf cache /\ JsMap.size cache <= 50.

(** A run of stores, in order, from a given cache. *)
Definition storeAll (stores : list (string * CacheEntry)) (cache : Cache) : Cache :=
  fold_left (fun c kv => cacheStore (fst kv) (snd kv) c) stores cache.

Fixpoint distinct (l : list string) : bool :=
  match l with
  | [] => true
  | x :: l' => negb (existsb (String.eqb x) l') && distinct l'
  end.

(** *** Whole-word occurrences

    The sanitizer's test in the words of the specification, to be compared
    with the regular expression of the source. *)

(** The keywords the specification lists. *)
Definition blocklist : list string :=
  ["drop"; "delete"; "insert"; "update"; "exec"; "execute"; "script"; "javascript"].

Fixpoint lastChar (s : string) : option ascii :=
  match s with
  | EmptyString => None
  | String c s' => match lastChar s' with Some d => Some d | None => Some c end
  end.

(** [kw] occurs in [s] as a whole word, whatever the letter case: [s] is
    [before ++ m ++ after] where [m] is [kw] up to case, [before] does not
    end with a word character and [after] does not start with one. *)
Definition occursAsWord (kw s : string) : Prop :=
  exists before m after,
    s = before ++ m ++ after /\
    Js.toLowerCase m = kw /\
    Js.isWordCharOpt (lastChar before) = false /\
    Js.isWordCharOpt (Js.head after) = false.

(** [s] contains one of the blocklisted keywords as a whole word,
    case-insensitively. *)
Definition containsBlockedWord (s : string) : Prop :=
  exists kw, In kw blocklist /\ occursAsWord kw s.

Definition isLowerLetter (c : ascii) : bool := Js.inRange 97 122 (Js.code c).

Fixpoint allLowerLetters (s : string) : bool :=
  match s with
  | EmptyString => true
  | String c s' => isLowerLetter c && allLowerLetters s'
  end.

(** *** The matcher, position by position *)

(** The code unit before the current position once [m] has been read. *)
Definition prevAfter (prev : option ascii) (m : string) : option ascii :=
  match lastChar m with Some c => Some c | None => prev end.

(** Reading the literal [w] off the front of [s], up to case. *)
Fixpoint splitLiteral (w s : string) : option (string * string) :=
  match w with
  | EmptyString => Some (EmptyString, s)
  | String p w' =>
      match s with
      | String c s' =>
          if Js.charMatches true p c then
            match splitLiteral w' s' with
            | Some (m, rest) => Some (String c m, rest)
            | None => None
            end
          else None
      | EmptyString => None
      end
  end.

(** All 256 code units. *)
Definition allChars : list ascii := map ascii_of_nat (seq 0 256).

(** The upstream call did not deliver a decoded body: the request was
    aborted by the timer or rejected, the status was not a success, or the
    body could not be decoded. *)
Definition upstreamFailed (settled : Settled) : bool :=
  match settled with
  | Resolved response =>
      negb (ok response) || match json response with Throw _ => true | Ok _ => false end
  | Rejected _ => true
  | Aborted => true
  end.

(** The [limit] argument of the tools that declare it without bounds. *)
Definition unboundedLimit (call : ToolCall) : option (option Js.number) :=
  match call with
  | SearchRoadmap _ limit => Some limit
  | FilterByReleasePhase _ limit => Some limit
  | FilterByStatus _ limit => Some limit
  | FilterByDate _ _ limit => Some limit
  | FilterRoadmap _ limit => Some limit
  | GetRoadmapItems _ _ _ => None
  | GetRoadmapItem _ => None
  | FilterByProduct _ _ => None
  end.

(** The items a call slices: the fetched items, or for [search_roadmap]
    those matching the keyword. *)
Definition candidates (call : ToolCall) (items : list RoadmapItem) : list RoadmapItem :=
  match call with
  | SearchRoadmap keyword _ => List.filter (matchesKeyword (Js.toLowerCase keyword)) items
  | _ => items
  end.

(** *** Whole parts *)

(** [k <= x < k + 1]: the integer [k] is the whole part of a number [x]
    that is not negative. *)
Definition wholePart (k : Z) (x : Js.number) : bool :=
  Js.leb (Js.ofZ k) x && Js.ltb x (Js.ofZ (k + 1)).

(** [- (k + 1) < x <= - k]: the integer [k] is the whole part of [|x|], for
    a number [x] that is not positive. *)
Definition wholePartOfOpposite (k : Z) (x : Js.number) : bool :=
  Js.ltb (Js.ofZ (- (k + 1))) x && Js.leb x (Js.ofZ (- k)).

(** [Finite m e] is the fraction [num m e / den e], whose denominator is
    positive; it is compared with an integer [k] as [num m e] is with
    [k * den e]. *)
Definition num (m e : Z) : Z := m * 2 ^ (e - Z.min e 0).

Definition den (e : Z) : Z := 2 ^ (0 - Z.min e 0).

(** Zero, a positive number or [+Infinity]. *)
Definition notNegative (x : Js.number) : Prop :=
  match x with
  | Js.NaN => False
  | Js.Infinity negative => negative = false
  | Js.Finite m _ => 0 <= m
  end.

(** *** Counting the events of the [/mcp] route *)

Fixpoint tally (p : McpEvent -> bool) (events : list McpEvent) : Z :=
  match events with
  | [] => 0
  | event :: rest => (if p event then 1 else 0) + tally p rest
  end.

Definition isReceived (event : McpEvent) : bool :=
  match event with Received => true | _ => false end.

Definition isHandled (event : McpEvent) : bool :=
  match event with Handled _ => true | _ => false end.

Definition isThrew (event : McpEvent) : bool :=
  match event with Threw _ => true | _ => false end.

(** The event ends a request that names the tool [name]; with [failedOnly]
    only the requests whose transport threw count. *)
Definition endsToolCall (name : string) (failedOnly : bool) (event : McpEvent) : bool :=
  match event with
  | Received => false
  | Handled (Some n) => negb failedOnly && Js.truthy n && (n =? name)%string
  | Threw (Some n) => Js.truthy n && (n =? name)%string
  | Handled None => false
  | Threw None => false
  end.

(** The metrics of a tool after [c] more calls, [e] of them failed. *)
Definition bump (before : option ToolMetrics) (c e : Z) : option ToolMetrics :=
  if c =? 0 then before
  else
    let m := match before with Some m => m | None => {| calls := 0; errors := 0 |} end in
    Some {| calls := calls m + c; errors := errors m + e |}.

(** *** Request ids *)

(** The ids given to the requests that arrive, in order, when the clock
    reads [nows] and the counter starts from [requestCounter]. *)
Fixpoint requestIds (nows : list Z) (requestCounter : Z) : list string :=
  match nows with
  | [] => []
  | now :: rest =>
      fst (nextRequestId now requestCounter)
      :: requestIds rest (snd (nextRequestId now requestCounter))
  end.

Fixpoint hasDash (s : string) : bool :=
  match s with
  | EmptyString => false
  | String c s' => Ascii.eqb c "-" || hasDash s'
  end.

Fixpoint afterLastDash (s : string) : string :=
  match s with
  | EmptyString => EmptyString
  | String c s' =>
      if hasDash s' then afterLastDash s'
      else if Ascii.eqb c "-" then s' else String c s'
  end.

(** *** Strings by their code units *)

Fixpoint allOf (p : ascii -> bool) (s : string) : bool :=
  match s with
  | EmptyString => true
  | String c s' => p c && allOf p s'
  end.

Definition isWhiteSpaceOpt (o : option ascii) : bool :=
  match o with Some c => Js.isWhiteSpace c | None => false end.

(** [t] is [s] without its semicolons and backslashes, every other code
    unit kept in its place. *)
Definition withoutSemicolonsAndBackslashes (s t : string) : Prop :=
  list_ascii_of_string t =
  List.filter (fun c => negb (Ascii.eqb c ";") && negb (Ascii.eqb c "\"))
    (list_ascii_of_string s).

(** [t] is [s] without the white space at its two ends. *)
Definition trimmedOf (s t : string) : Prop :=
  exists lead trail,
    s = lead ++ t ++ trail /\
    allOf Js.isWhiteSpace lead = true /\
    allOf Js.isWhiteSpace trail = true /\
    isWhiteSpaceOpt (Js.head t) = false /\
    isWhiteSpaceOpt (lastChar t) = false.

(** The code units the sanitizer does not remove. *)
Definition isKept (c : ascii) : bool := negb (isSemicolonOrBackslash c).


(** *** Sample inputs *)

Definition sampleItem (n : nat) : RoadmapItem :=
  {| id := Js.showZ (Z.of_nat n);
     title := Some "Microsoft Copilot Update";
     description := None;
     category := None;
     platform := None;
     releasePhase := None;
     generalAvailability := None;
     publicPreview := None;
     updated := None |}.

Definition sampleItems (n : nat) : list RoadmapItem := map sampleItem (seq 0 n).

Definition okResponse (items : list RoadmapItem) : Response :=
  {| ok := true; status := 200; statusText := "OK"; text := Ok ""; json := Ok (Some items) |}.

(** A world whose clock reads [now] and whose upstream settles every
    request the same way. *)
Definition constWorld (now : Z) (settled : Settled) : World :=
  {| now_check := now; now_update := now; fetch := fun _ => settled |}.

Definition sampleEntry (n : nat) : string * CacheEntry :=
  let key := Js.showZ (Z.of_nat n) in
  ("id eq " ++ key, {| data := []; timestamp := Z.of_nat n; filter := Some ("id eq " ++ key) |}).

(* ------------------------------------------------------------------ *)
(** * Properties *)

(** ** The insertion-ordered map *)

Module JsMapFacts.
Import JsMap.
Section WithValue.
Context {V : Type}.
Implicit Types (m : JsMap.t V) (k : string) (v : V).

Lemma get_set_same k v m : get k (set k v m) = Some v.
Proof.
  induction m as [|[k' v'] m IH]; simpl.
  - now rewrite String.eqb_refl.
  - destruct (String.eqb_spec k' k) as [->|Hne]; simpl.
    + now rewrite String.eqb_refl.
    + destruct (String.eqb_spec k' k); [contradiction | exact IH].
Qed.

Lemma get_set_other k k' v m : k <> k' -> get k' (set k v m) = get k' m.
Proof.
  intros Hne. induction m as [|[k1 v1] m IH]; simpl.
  - destruct (String.eqb_spec k k'); [contradiction | reflexivity].
  - destruct (String.eqb_spec k1 k) as [->|H1]; simpl.
    + destruct (String.eqb_spec k k'); [contradiction | reflexivity].
    + now rewrite IH.
Qed.

Lemma get_None_iff k m : get k m = None <-> ~ In k (keys m).
Proof.
  induction m as [|[k' v'] m IH]; simpl.
  - tauto.
  - destruct (String.eqb_spec k' k) as [->|Hne].
    + split; [discriminate | intros H; exfalso; apply H; now left].
    + rewrite IH. tauto.
Qed.

Lemma get_app_l k m m' : ~ In k (keys m) -> get k (m ++ m')%list = get k m'.
Proof.
  induction m as [|[k' v'] m IH]; simpl; [reflexivity|].
  intros H. destruct (String.eqb_spec k' k) as [->|Hne]; [tauto|].
  apply IH. tauto.
Qed.

Lemma set_fresh k v m : ~ In k (keys m) -> set k v m = (m ++ [(k, v)])%list.
Proof.
  induction m as [|[k' v'] m IH]; simpl; [reflexivity|].
  intros H. destruct (String.eqb_spec k' k) as [->|Hne]; [tauto|].
  rewrite IH; [reflexivity | tauto].
Qed.

Lemma keys_set_present k v m : In k (keys m) -> keys (set k v m) = keys m.
Proof.
  induction m as [|[k' v'] m IH]; simpl; [tauto|].
  intros H. destruct (String.eqb_spec k' k) as [->|Hne]; simpl; [reflexivity|].
  rewrite IH; [reflexivity|]. destruct H; [contradiction | assumption].
Qed.

Lemma size_cons (x : string * V) m : size (x :: m) = size m + 1.
Proof. unfold size. cbn [List.length]. lia. Qed.

Lemma size_set_present k v m : In k (keys m) -> size (set k v m) = size m.
Proof.
  intros H. unfold size.
  rewrite <- (length_map fst (set k v m)), <- (length_map fst m).
  change (map fst (set k v m)) with (keys (set k v m)).
  now rewrite (keys_set_present k v m H).
Qed.

Lemma size_set_fresh k v m : ~ In k (keys m) -> size (set k v m) = size m + 1.
Proof.
  intros H. rewrite (set_fresh k v m H). unfold size.
  rewrite length_app. simpl. lia.
Qed.

Lemma wf_set k v m : wf m -> wf (set k v m).
Proof.
  unfold wf. intros Hm.
  destruct (in_dec string_dec k (keys m)) as [Hin|Hout].
  - now rewrite keys_set_present.
  - rewrite (set_fresh k v m Hout). unfold keys. rewrite map_app. simpl.
    apply NoDup_app; [exact Hm | repeat constructor; simpl; tauto |].
    intros x Hx [<-|[]]. exact (Hout Hx).
Qed.

Lemma delete_head k v m : delete k ((k, v) :: m) = m.
Proof. simpl. now rewrite String.eqb_refl. Qed.

Lemma wf_tail k v m : wf ((k, v) :: m) -> wf m /\ get k m = None.
Proof.
  unfold wf. simpl. intros H. inversion H; subst.
  split; [assumption | now apply get_None_iff].
Qed.
End WithValue.
End JsMapFacts.

(** ** Cache: expiry and capacity *)

(** The store as one equation: the tail of the updated map when it has more
    than 50 entries. *)
Lemma cacheStore_eq (cacheKey : string) (entry : CacheEntry) (cache : Cache) :
  cacheStore cacheKey entry cache =
  if 50 <? JsMap.size (JsMap.set cacheKey entry cache)
  then tl (JsMap.set cacheKey entry cache)
  else JsMap.set cacheKey entry cache.
Proof.
  unfold cacheStore.
  destruct (50 <? _); [|reflexivity].
  destruct (JsMap.set cacheKey entry cache) as [|[k0 e0] rest] eqn:E; [reflexivity|].
  simpl JsMap.keys. cbv iota. now rewrite JsMapFacts.delete_head.
Qed.

Lemma cacheStore_ok (cacheKey : string) (entry : CacheEntry) (cache : Cache) :
  cacheOk cache -> cacheOk (cacheStore cacheKey entry cache).
Proof.
  intros [Hwf Hsize]. rewrite cacheStore_eq.
  pose proof (JsMapFacts.wf_set cacheKey entry cache Hwf) as Hwf1.
  destruct (50 <? JsMap.size (JsMap.set cacheKey entry cache)) eqn:E.
  - apply Z.ltb_lt in E.
    destruct (JsMap.set cacheKey entry cache) as [|[k0 e0] rest] eqn:Eset.
    + split; [constructor | unfold JsMap.size; simpl; lia].
    + simpl. split; [apply (JsMapFacts.wf_tail k0 e0 rest Hwf1)|].
      destruct (in_dec string_dec cacheKey (JsMap.keys cache)) as [Hin|Hout].
      * rewrite <- Eset, JsMapFacts.size_set_present in E by assumption. lia.
      * pose proof (JsMapFacts.size_set_fresh cacheKey entry cache Hout) as Hs.
        rewrite Eset in Hs. unfold JsMap.size in *. simpl in Hs. lia.
  - apply Z.ltb_ge in E. split; assumption.
Qed.

Lemma cacheStore_get_same (cacheKey : string) (entry : CacheEntry) (cache : Cache) :
  cacheOk cache -> JsMap.get cacheKey (cacheStore cacheKey entry cache) = Some entry.
Proof.
  intros [Hwf Hsize]. rewrite cacheStore_eq.
  destruct (50 <? JsMap.size (JsMap.set cacheKey entry cache)) eqn:E;
    [|apply JsMapFacts.get_set_same].
  apply Z.ltb_lt in E.
  destruct (in_dec string_dec cacheKey (JsMap.keys cache)) as [Hin|Hout].
  - rewrite JsMapFacts.size_set_present in E by assumption. lia.
  - rewrite (JsMapFacts.set_fresh cacheKey entry cache Hout).
    rewrite JsMapFacts.size_set_fresh in E by assumption.
    destruct cache as [|[k0 e0] rest]; [unfold JsMap.size in E; simpl in E; lia|].
    simpl. rewrite JsMapFacts.get_app_l.
    + simpl. now rewrite String.eqb_refl.
    + intros H. apply Hout. simpl. now right.
Qed.

(** C1. A lookup after a store, by the age [now - timestamp] of the entry:
    below 300000 ms it returns the stored items, and [fetchRoadmapItemsV2]
    answers from the cache whatever the upstream would say; from 300000 ms
    on it is a miss, the entry is still in the map, and the call goes
    upstream. *)
Theorem cache_ttl
    (w : World) (filter sanitizedFilter : option string)
    (items : list RoadmapItem) (t0 : Z) (cache : Cache) :
  cacheOk cache ->
  sanitizeOptional filter = Ok sanitizedFilter ->
  let cacheKey := cacheKeyOf sanitizedFilter in
  let entry := {| data := items; timestamp := t0; filter := sanitizedFilter |} in
  let cache' := cacheStore cacheKey entry cache in
  let age := now_check w - t0 in
  JsMap.get cacheKey cache' = Some entry /\
  cacheLookup (now_check w) cacheKey cache' =
    (if age <? 300000 then Some items else None) /\
  fetchRoadmapItemsV2 w filter cache' =
    (if age <? 300000 then (Ok items, cache')
     else match fetchItems w sanitizedFilter with
          | Throw e => (Throw e, cache')
          | Ok items' =>
              (Ok items',
               cacheStore cacheKey
                 {| data := items'; timestamp := now_update w; filter := sanitizedFilter |}
                 cache')
          end).
Proof.
  intros Hok Hsan cacheKey entry cache' age.
  assert (Hget : JsMap.get cacheKey cache' = Some entry)
    by (apply cacheStore_get_same; exact Hok).
  assert (Hlook : cacheLookup (now_check w) cacheKey cache' =
                  if age <? 300000 then Some items else None).
  { unfold cacheLookup. rewrite Hget. reflexivity. }
  repeat split; [exact Hget | exact Hlook |].
  unfold fetchRoadmapItemsV2. rewrite Hsan. fold cacheKey. rewrite Hlook.
  destruct (age <? 300000); reflexivity.
Qed.

Lemma cache_ttl_witness :
  let w := constWorld 299999 Aborted in
  let cache' :=
    cacheStore "all" {| data := sampleItems 3; timestamp := 0; filter := None |} JsMap.empty in
  JsMap.get "all" cache' = Some {| data := sampleItems 3; timestamp := 0; filter := None |} /\
  cacheLookup 299999 "all" cache' = Some (sampleItems 3) /\
  fetchRoadmapItemsV2 w None cache' = (Ok (sampleItems 3), cache').
Proof.
  apply (cache_ttl (constWorld 299999 Aborted) None None (sampleItems 3) 0 JsMap.empty).
  - split; [constructor | unfold JsMap.size; simpl; lia].
  - reflexivity.
Defined.

Lemma distinct_NoDup (l : list string) : distinct l = true -> NoDup l.
Proof.
  induction l as [|x l IH]; simpl; [constructor|].
  intros H. apply andb_prop in H as [Hx Hl].
  constructor; [|auto].
  intros Hin. apply negb_true_iff in Hx.
  assert (existsb (String.eqb x) l = true); [|congruence].
  apply existsb_exists. exists x. split; [assumption | apply String.eqb_refl].
Qed.

Lemma storeAll_fits (stores : list (string * CacheEntry)) (cache : Cache) :
  NoDup (JsMap.keys cache ++ map fst stores)%list ->
  JsMap.size cache + Z.of_nat (List.length stores) <= 50 ->
  storeAll stores cache = (cache ++ stores)%list.
Proof.
  revert cache. induction stores as [|[k e] stores IH]; intros cache Hnd Hsize.
  - simpl. now rewrite app_nil_r.
  - simpl in *. unfold storeAll in *. simpl.
    assert (Hout : ~ In k (JsMap.keys cache)).
    { intros Hin. apply NoDup_remove_2 in Hnd. apply Hnd.
      apply in_or_app. now left. }
    assert (Hstore : cacheStore k e cache = (cache ++ [(k, e)])%list).
    { rewrite cacheStore_eq, JsMapFacts.size_set_fresh by assumption.
      destruct (50 <? JsMap.size cache + 1) eqn:E; [apply Z.ltb_lt in E; lia|].
      now apply JsMapFacts.set_fresh. }
    rewrite Hstore, IH.
    + now rewrite <- app_assoc.
    + unfold JsMap.keys. rewrite map_app, <- app_assoc. simpl. exact Hnd.
    + unfold JsMap.size in *. rewrite length_app. simpl. lia.
Qed.

Lemma storeAll_snoc (stores : list (string * CacheEntry)) (k : string) (e : CacheEntry)
    (cache : Cache) :
  storeAll (stores ++ [(k, e)])%list cache = cacheStore k e (storeAll stores cache).
Proof. unfold storeAll. now rewrite fold_left_app. Qed.

(** C2. A store evicts exactly when the updated map has more than 50
    entries, and then it removes the first entry in iteration order and
    nothing else; storing 51 distinct keys into the empty cache leaves the
    50 entries stored last, without the key stored first. *)
Theorem cache_capacity
    (cacheKey : string) (entry : CacheEntry) (cache : Cache)
    (stores : list (string * CacheEntry)) :
  JsMap.wf cache ->
  List.length stores = 51%nat ->
  NoDup (map fst stores) ->
  let updated := JsMap.set cacheKey entry cache in
  cacheStore cacheKey entry cache = (if 50 <? JsMap.size updated then tl updated else updated) /\
  (50 < JsMap.size updated ->
     JsMap.size (cacheStore cacheKey entry cache) = JsMap.size updated - 1 /\
     JsMap.get (List.hd "" (JsMap.keys updated)) (cacheStore cacheKey entry cache) = None /\
     forall k, k <> List.hd "" (JsMap.keys updated) ->
       JsMap.get k (cacheStore cacheKey entry cache) = JsMap.get k updated) /\
  JsMap.size (storeAll stores JsMap.empty) = 50 /\
  JsMap.keys (storeAll stores JsMap.empty) = tl (map fst stores) /\
  JsMap.get (List.hd "" (map fst stores)) (storeAll stores JsMap.empty) = None.
Proof.
  intros Hwf Hlen Hnd updated.
  split; [apply cacheStore_eq|]. split.
  - intros Hbig. rewrite cacheStore_eq. fold updated.
    apply Z.ltb_lt in Hbig as Hb. rewrite Hb.
    pose proof (JsMapFacts.wf_set cacheKey entry cache Hwf) as Hwf1. fold updated in Hwf1.
    destruct updated as [|[k0 e0] rest].
    + unfold JsMap.size in Hbig. simpl in Hbig. lia.
    + cbn [tl]. destruct (JsMapFacts.wf_tail k0 e0 rest Hwf1) as [_ Hk0].
      repeat split.
      * rewrite JsMapFacts.size_cons. lia.
      * simpl. exact Hk0.
      * simpl. intros k Hk. destruct (String.eqb_spec k0 k); [congruence | reflexivity].
  - destruct (exists_last (l := stores)) as [front [[k e] ->]];
      [intros ->; discriminate|].
    rewrite length_app in Hlen. simpl in Hlen.
    rewrite map_app in Hnd. simpl in Hnd.
    assert (Hfront : storeAll front JsMap.empty = front).
    { apply (storeAll_fits front JsMap.empty).
      - simpl. now apply NoDup_app_remove_r in Hnd.
      - unfold JsMap.size. simpl. lia. }
    assert (Hout : ~ In k (JsMap.keys front)).
    { apply NoDup_remove_2 in Hnd. rewrite app_nil_r in Hnd. exact Hnd. }
    assert (Hall : storeAll (front ++ [(k, e)])%list JsMap.empty = tl (front ++ [(k, e)])%list).
    { rewrite storeAll_snoc, Hfront, cacheStore_eq.
      rewrite JsMapFacts.size_set_fresh, JsMapFacts.set_fresh by assumption.
      unfold JsMap.size.
      destruct (50 <? Z.of_nat (List.length front) + 1) eqn:E; [reflexivity|].
      apply Z.ltb_ge in E. lia. }
    rewrite Hall.
    destruct front as [|[k1 e1] front']; [simpl in Hlen; lia|].
    simpl. split; [|split; [reflexivity|]].
    + unfold JsMap.size. rewrite length_app. simpl in *. lia.
    + apply JsMapFacts.get_None_iff. unfold JsMap.keys. rewrite map_app. simpl.
      simpl in Hnd. inversion Hnd; subst. assumption.
Qed.

Lemma cache_capacity_witness :
  let stores := map sampleEntry (seq 0 51) in
  JsMap.size (storeAll stores JsMap.empty) = 50 /\
  JsMap.keys (storeAll stores JsMap.empty) = tl (map fst stores) /\
  JsMap.get "id eq 0" (storeAll stores JsMap.empty) = None.
Proof.
  apply (cache_capacity "all" {| data := []; timestamp := 0; filter := None |}
           JsMap.empty (map sampleEntry (seq 0 51))).
  - constructor.
  - reflexivity.
  - apply distinct_NoDup. vm_compute. reflexivity.
Defined.

(** ** Slicing *)

Module NumberFacts.

Lemma den_pos (e : Z) : 0 < den e.
Proof. unfold den. apply Z.pow_pos_nonneg; lia. Qed.

Lemma num_sign (m e : Z) : (0 <= m -> 0 <= num m e) /\ (m <= 0 -> num m e <= 0).
Proof.
  unfold num. assert (0 < 2 ^ (e - Z.min e 0)) by (apply Z.pow_pos_nonneg; lia).
  split; nia.
Qed.

Lemma compare_Finite_ofZ (m e k : Z) :
  Js.compareFinite m e k 0 = Z.compare (num m e) (k * den e).
Proof. reflexivity. Qed.

Lemma compare_ofZ_Finite (m e k : Z) :
  Js.compareFinite k 0 m e = Z.compare (k * den e) (num m e).
Proof. unfold Js.compareFinite, num, den. now rewrite (Z.min_comm 0 e). Qed.

Lemma ltb_Finite_ofZ (m e k : Z) :
  Js.ltb (Js.Finite m e) (Js.ofZ k) = (num m e <? k * den e).
Proof. unfold Js.ltb, Js.ofZ. rewrite compare_Finite_ofZ. reflexivity. Qed.

Lemma ltb_ofZ_Finite (m e k : Z) :
  Js.ltb (Js.ofZ k) (Js.Finite m e) = (k * den e <? num m e).
Proof. unfold Js.ltb, Js.ofZ. rewrite compare_ofZ_Finite. reflexivity. Qed.

Lemma leb_Finite_ofZ (m e k : Z) :
  Js.leb (Js.Finite m e) (Js.ofZ k) = (num m e <=? k * den e).
Proof. unfold Js.leb, Js.ofZ. rewrite compare_Finite_ofZ. reflexivity. Qed.

Lemma leb_ofZ_Finite (m e k : Z) :
  Js.leb (Js.ofZ k) (Js.Finite m e) = (k * den e <=? num m e).
Proof. unfold Js.leb, Js.ofZ. rewrite compare_ofZ_Finite. reflexivity. Qed.

Lemma eqb_ofZ_Finite (m e k : Z) :
  Js.eqb (Js.ofZ k) (Js.Finite m e) = (k * den e =? num m e).
Proof.
  unfold Js.eqb, Js.ofZ. rewrite compare_ofZ_Finite. symmetry. apply Z.eqb_compare.
Qed.

Lemma ltb_ofZ (a b : Z) : Js.ltb (Js.ofZ a) (Js.ofZ b) = (a <? b).
Proof.
  unfold Js.ofZ at 1. rewrite ltb_Finite_ofZ. unfold num, den. simpl.
  rewrite !Z.mul_1_r. reflexivity.
Qed.

Lemma leb_ofZ (a b : Z) : Js.leb (Js.ofZ a) (Js.ofZ b) = (a <=? b).
Proof.
  unfold Js.ofZ at 1. rewrite leb_Finite_ofZ. unfold num, den. simpl.
  rewrite !Z.mul_1_r. reflexivity.
Qed.

Lemma truncate_quot (m e : Z) : Js.truncate m e = Z.quot (num m e) (den e).
Proof.
  unfold Js.truncate, num, den. destruct (Z.leb_spec 0 e) as [H|H].
  - rewrite Z.min_r by lia. rewrite Z.sub_0_r. simpl. now rewrite Z.quot_1_r.
  - rewrite Z.min_l by lia. rewrite Z.sub_diag. simpl. rewrite Z.mul_1_r.
    f_equal.
Qed.

Lemma quot_between (n d k : Z) :
  0 < d -> 0 <= k -> k * d <= n < (k + 1) * d -> Z.quot n d = k.
Proof.
  intros Hd Hk Hn. rewrite Z.quot_div_nonneg by nia.
  symmetry. apply (Z.div_unique n d k (n - k * d)); lia.
Qed.

Lemma quot_between_opposite (n d k : Z) :
  0 < d -> 0 <= k -> - (k + 1) * d < n <= - k * d -> Z.quot n d = - k.
Proof.
  intros Hd Hk Hn.
  replace n with (- (- n)) by lia. rewrite Z.quot_opp_l by lia.
  f_equal. apply quot_between; lia.
Qed.

Lemma toIntegerOrInfinity_ofZ (z : Z) :
  Js.toIntegerOrInfinity (Js.ofZ z) = Js.Integer z.
Proof.
  unfold Js.toIntegerOrInfinity, Js.ofZ, Js.truncate. simpl. f_equal. lia.
Qed.

(** The whole part is what [ToIntegerOrInfinity] keeps. *)
Lemma wholePart_toInteger (k : Z) (x : Js.number) :
  0 <= k -> wholePart k x = true -> Js.toIntegerOrInfinity x = Js.Integer k.
Proof.
  intros Hk H. apply andb_prop in H as [Hle Hlt].
  destruct x as [|negative|m e]; try discriminate.
  - destruct negative; discriminate.
  - rewrite leb_ofZ_Finite in Hle. rewrite ltb_Finite_ofZ in Hlt.
    apply Z.leb_le in Hle. apply Z.ltb_lt in Hlt.
    simpl. rewrite truncate_quot. f_equal.
    apply quot_between; [apply den_pos | assumption | lia].
Qed.

Lemma wholePartOfOpposite_toInteger (k : Z) (x : Js.number) :
  0 <= k -> wholePartOfOpposite k x = true ->
  Js.toIntegerOrInfinity x = Js.Integer (- k).
Proof.
  intros Hk H. apply andb_prop in H as [Hlt Hle].
  destruct x as [|negative|m e]; try discriminate.
  - destruct negative; discriminate.
  - rewrite ltb_ofZ_Finite in Hlt. rewrite leb_Finite_ofZ in Hle.
    apply Z.leb_le in Hle. apply Z.ltb_lt in Hlt.
    simpl. rewrite truncate_quot. f_equal.
    apply quot_between_opposite; [apply den_pos | assumption | lia].
Qed.

(** A number strictly between -1 and 1 has no whole part. *)
Lemma small_toInteger (x : Js.number) :
  Js.ltb (Js.ofZ (-1)) x = true -> Js.ltb x (Js.ofZ 1) = true ->
  Js.toIntegerOrInfinity x = Js.Integer 0.
Proof.
  intros Hlo Hhi. destruct x as [|negative|m e]; try discriminate.
  - destruct negative; discriminate.
  - rewrite ltb_ofZ_Finite in Hlo. rewrite ltb_Finite_ofZ in Hhi.
    apply Z.ltb_lt in Hlo, Hhi. pose proof (den_pos e) as Hd.
    simpl. rewrite truncate_quot. f_equal.
    destruct (Z_le_gt_dec 0 (num m e)) as [Hpos|Hneg].
    + apply (quot_between _ _ 0); lia.
    + apply (quot_between_opposite _ _ 0); lia.
Qed.

(** Every finite number that is not negative has a whole part, and only
    one. *)
Lemma wholePart_truncate (m e : Z) :
  Js.ltb (Js.Finite m e) (Js.ofZ 0) = false ->
  0 <= Js.truncate m e /\ wholePart (Js.truncate m e) (Js.Finite m e) = true.
Proof.
  intros H. rewrite ltb_Finite_ofZ in H. apply Z.ltb_ge in H.
  pose proof (den_pos e) as Hd. rewrite truncate_quot.
  rewrite Z.quot_div_nonneg by lia.
  assert (Hq : 0 <= num m e / den e) by (apply Z.div_pos; lia).
  split; [assumption|].
  unfold wholePart. rewrite leb_ofZ_Finite, ltb_Finite_ofZ.
  pose proof (Z.mul_div_le (num m e) (den e) Hd).
  pose proof (Z.mul_succ_div_gt (num m e) (den e) Hd).
  apply andb_true_intro. split; [apply Z.leb_le | apply Z.ltb_lt]; lia.
Qed.

Lemma wholePart_nonneg (k : Z) (x : Js.number) :
  Js.ltb x (Js.ofZ 0) = false -> wholePart k x = true -> 0 <= k.
Proof.
  intros H0 H. apply andb_prop in H as [_ Hlt].
  destruct x as [|negative|m e]; try discriminate.
  - destruct negative; discriminate.
  - rewrite ltb_Finite_ofZ in H0, Hlt.
    apply Z.ltb_ge in H0. apply Z.ltb_lt in Hlt.
    pose proof (den_pos e). nia.
Qed.

Lemma wholePart_ofZ (k : Z) : wholePart k (Js.ofZ k) = true.
Proof.
  unfold wholePart. rewrite leb_ofZ, ltb_ofZ.
  apply andb_true_intro. split; [apply Z.leb_le | apply Z.ltb_lt]; lia.
Qed.

(** The sum of two integers below [2^53] in absolute value is exact. *)
Lemma add_ofZ (a b : Z) :
  Z.abs (a + b) < 2 ^ 53 -> Js.add (Js.ofZ a) (Js.ofZ b) = Js.ofZ (a + b).
Proof.
  intros H. unfold Js.add, Js.ofZ.
  change (Z.min 0 0) with 0. change (2 ^ (0 - 0)) with 1. rewrite !Z.mul_1_r.
  unfold Js.roundDouble.
  destruct (Z.eqb_spec (a + b) 0) as [E|E]; [reflexivity|].
  assert (Hlog : Z.log2 (Z.abs (a + b)) < 53) by (apply Z.log2_lt_pow2; lia).
  destruct (Z.leb_spec (Z.max (Z.log2 (Z.abs (a + b)) + 0 - 52) (-1074)) 0) as [_|Hbad];
    [|lia].
  destruct (Z.leb_spec 1024 (Z.log2 (Z.abs (a + b)) + 0)); [lia | reflexivity].
Qed.

(** The sum is the nearest double: [0.1 + 0.2], two ties above [2^53], the
    largest double plus half a unit of its last place and plus a quarter,
    and a tie between the two smallest positive doubles. *)
Lemma add_examples :
  Js.add (Js.Finite 3602879701896397 (-55)) (Js.Finite 3602879701896397 (-54)) =
    Js.Finite 5404319552844596 (-54) /\
  Js.add (Js.ofZ (2 ^ 53)) (Js.ofZ 1) = Js.Finite (2 ^ 52) 1 /\
  Js.add (Js.ofZ (2 ^ 53 + 2)) (Js.ofZ 1) = Js.Finite (2 ^ 52 + 2) 1 /\
  Js.add (Js.Finite (2 ^ 53 - 1) 971) (Js.Finite 1 970) = Js.Infinity false /\
  Js.add (Js.Finite (2 ^ 53 - 1) 971) (Js.Finite 1 969) = Js.Finite (2 ^ 53 - 1) 971 /\
  Js.add (Js.Finite 1 (-1074)) (Js.Finite 1 (-1075)) = Js.Finite 2 (-1074).
Proof. vm_compute. repeat split; reflexivity. Qed.

(** Rounding keeps the sign. *)
Lemma roundHalfEven_nonneg (a k : Z) : 0 <= a -> 0 <= Js.roundHalfEven a k.
Proof.
  intros Ha. unfold Js.roundHalfEven.
  assert (0 <= a / 2 ^ k).
  { destruct (Z_lt_le_dec k 0) as [Hk|Hk].
    - rewrite Z.pow_neg_r by assumption. now rewrite Z.div_0_r.
    - apply Z.div_pos; [assumption | apply Z.pow_pos_nonneg; lia]. }
  destruct (2 * (a mod 2 ^ k) ?= 2 ^ k); [destruct (Z.even _)| |]; lia.
Qed.

Lemma notNegative_iff (x : Js.number) :
  notNegative x <-> Js.isNaN x = false /\ Js.ltb x (Js.ofZ 0) = false.
Proof.
  destruct x as [|negative|m e].
  - simpl. split; [tauto | intros [H _]; discriminate].
  - destruct negative; simpl; split; try tauto; try discriminate;
      intros [_ H]; discriminate.
  - unfold notNegative, Js.isNaN. rewrite ltb_Finite_ofZ.
    pose proof (num_sign m e) as [Hpos Hneg].
    assert (Hp : 0 < 2 ^ (e - Z.min e 0)) by (apply Z.pow_pos_nonneg; lia).
    split.
    + intros H. split; [reflexivity|]. apply Z.ltb_ge. rewrite Z.mul_0_l. auto.
    + intros [_ H]. apply Z.ltb_ge in H. rewrite Z.mul_0_l in H. unfold num in H. nia.
Qed.

Lemma roundDouble_notNegative (m e : Z) : 0 <= m -> notNegative (Js.roundDouble m e).
Proof.
  intros Hm. unfold Js.roundDouble.
  assert (Hsign : (m <? 0) = false) by (apply Z.ltb_ge; assumption).
  destruct (m =? 0); [exact Hm|].
  destruct (_ <=? e).
  - destruct (1024 <=? _); [exact Hsign | exact Hm].
  - destruct (_ && _); [exact Hsign|].
    simpl. pose proof (roundHalfEven_nonneg (Z.abs m)
                         (Z.max (Z.log2 (Z.abs m) + e - 52) (-1074) - e) (Z.abs_nonneg m)).
    assert (0 <= Z.sgn m) by lia. nia.
Qed.

Lemma add_notNegative (x y : Js.number) :
  notNegative x -> notNegative y -> notNegative (Js.add x y).
Proof.
  destruct x as [|nx|m1 e1], y as [|ny|m2 e2]; simpl; try tauto.
  - intros -> ->. reflexivity.
  - intros H1 H2. apply roundDouble_notNegative.
    assert (0 < 2 ^ (e1 - Z.min e1 e2)) by (apply Z.pow_pos_nonneg; lia).
    assert (0 < 2 ^ (e2 - Z.min e1 e2)) by (apply Z.pow_pos_nonneg; lia).
    nia.
Qed.

(** A number that is not negative is [+Infinity] or has a whole part. *)
Lemma notNegative_cases (x : Js.number) :
  notNegative x ->
  x = Js.Infinity false \/ exists k, 0 <= k /\ wholePart k x = true.
Proof.
  intros H. pose proof (proj1 (notNegative_iff x) H) as [_ H0].
  destruct x as [|negative|m e]; [contradiction | |].
  - simpl in H. subst. now left.
  - right. exists (Js.truncate m e). exact (wholePart_truncate m e H0).
Qed.

Lemma notNegative_above (x : Js.number) (bound : Z) :
  0 <= bound -> Js.isNaN x = false -> Js.ltb x (Js.ofZ bound) = false ->
  notNegative x.
Proof.
  intros Hb Hnan H. apply notNegative_iff. split; [assumption|].
  destruct x as [|negative|m e]; [discriminate | now destruct negative |].
  rewrite ltb_Finite_ofZ in *. apply Z.ltb_ge in H. apply Z.ltb_ge.
  pose proof (den_pos e). nia.
Qed.

(** [Math.max(0, x)] is [x] for a number that is not negative. *)
Lemma max_zero (x : Js.number) :
  notNegative x ->
  notNegative (Js.max (Js.ofZ 0) x) /\
  Js.eqb (Js.max (Js.ofZ 0) x) x = true /\
  Js.toIntegerOrInfinity (Js.max (Js.ofZ 0) x) = Js.toIntegerOrInfinity x.
Proof.
  intros H. pose proof (proj1 (notNegative_iff x) H) as [Hnan H0].
  unfold Js.max. rewrite Hnan. cbn [Js.isNaN Js.ofZ orb].
  change (Js.Finite 0 0) with (Js.ofZ 0).
  destruct (Js.ltb (Js.ofZ 0) x) eqn:E.
  - split; [assumption|]. split; [|reflexivity].
    destruct x as [|negative|m e]; [discriminate | now destruct negative |].
    unfold Js.eqb, Js.compareFinite. now rewrite Z.compare_refl.
  - destruct x as [|negative|m e]; [discriminate | |].
    + simpl in H. subst. discriminate.
    + rewrite ltb_ofZ_Finite in E. rewrite ltb_Finite_ofZ in H0.
      apply Z.ltb_ge in E, H0. rewrite Z.mul_0_l in *.
      assert (Hnum : num m e = 0) by lia.
      split; [simpl; lia|]. split.
      * rewrite eqb_ofZ_Finite. apply Z.eqb_eq. lia.
      * rewrite toIntegerOrInfinity_ofZ. simpl. rewrite truncate_quot, Hnum.
        now rewrite Z.quot_0_l by (pose proof (den_pos e); lia).
Qed.

Lemma wholePart_unique (k z : Z) : wholePart k (Js.ofZ z) = true -> k = z.
Proof.
  unfold wholePart. rewrite leb_ofZ, ltb_ofZ. intros H.
  apply andb_prop in H as [H1 H2]. apply Z.leb_le in H1. apply Z.ltb_lt in H2. lia.
Qed.

(** The whole part of a number within integer bounds is within them. *)
Lemma wholePart_bounds (k lo hi : Z) (x : Js.number) :
  Js.ltb x (Js.ofZ lo) = false -> Js.ltb (Js.ofZ hi) x = false ->
  wholePart k x = true -> lo <= k <= hi.
Proof.
  intros Hlo Hhi H. apply andb_prop in H as [Hle Hlt].
  destruct x as [|negative|m e]; [discriminate | destruct negative; discriminate |].
  rewrite ltb_Finite_ofZ in Hlo, Hlt. rewrite ltb_ofZ_Finite in Hhi.
  rewrite leb_ofZ_Finite in Hle.
  apply Z.ltb_ge in Hlo, Hhi. apply Z.ltb_lt in Hlt. apply Z.leb_le in Hle.
  pose proof (den_pos e). nia.
Qed.

(** A whole part against an integer [n]: [x < n] exactly when the whole part
    is below [n]. *)
Lemma wholePart_ltb (k n : Z) (x : Js.number) :
  wholePart k x = true -> Js.ltb x (Js.ofZ n) = (k <? n).
Proof.
  intros H. apply andb_prop in H as [Hle Hlt].
  destruct x as [|negative|m e]; [discriminate | destruct negative; discriminate |].
  rewrite ltb_Finite_ofZ in *. rewrite leb_ofZ_Finite in Hle.
  apply Z.ltb_lt in Hlt. apply Z.leb_le in Hle.
  pose proof (den_pos e).
  destruct (Z.ltb_spec (num m e) (n * den e)); destruct (Z.ltb_spec k n);
    try reflexivity; nia.
Qed.

(** [Math.min(x, bound)] is [x] for a number that is not above the bound. *)
Lemma min_below (x : Js.number) (bound : Z) :
  Js.isNaN x = false -> Js.ltb (Js.ofZ bound) x = false ->
  Js.min x (Js.ofZ bound) = x.
Proof. intros Hnan H. unfold Js.min. rewrite Hnan, H. reflexivity. Qed.

End NumberFacts.

(** ** Slicing *)

Import NumberFacts.

(** Between whole bounds that are not negative, [slice] takes the elements
    from the first bound up to the second. *)
Lemma slice_between {A : Type} (l : list A) (start end_ : Js.number) (a b : Z) :
  0 <= a -> 0 <= b ->
  Js.toIntegerOrInfinity start = Js.Integer a ->
  Js.toIntegerOrInfinity end_ = Js.Integer b ->
  Js.slice l start end_ = firstn (Z.to_nat (b - a)) (skipn (Z.to_nat a) l).
Proof.
  intros Ha Hb Hs He. unfold Js.slice. rewrite Hs, He.
  unfold Js.relativeIndex.
  destruct (a <? 0) eqn:E1; [apply Z.ltb_lt in E1; lia|].
  destruct (b <? 0) eqn:E2; [apply Z.ltb_lt in E2; lia|].
  set (n := List.length l).
  destruct (Z_le_gt_dec (Z.of_nat n) a) as [Hbig|Hsmall].
  - rewrite (skipn_all2 (n := Z.to_nat a)) by (fold n; lia).
    rewrite (skipn_all2 (n := Z.to_nat (Z.min a (Z.of_nat n)))) by (fold n; lia).
    now rewrite !firstn_nil.
  - rewrite (Z.min_l a) by lia.
    destruct (Z_le_gt_dec b (Z.of_nat n)) as [Hin|Hover].
    + now rewrite Z.min_l by lia.
    + rewrite Z.min_r by lia.
      rewrite !firstn_all2; [reflexivity | |]; rewrite length_skipn; fold n; lia.
Qed.

(** From a whole bound on, when the end is [+Infinity]. *)
Lemma slice_from {A : Type} (l : list A) (start end_ : Js.number) (a : Z) :
  0 <= a ->
  Js.toIntegerOrInfinity start = Js.Integer a ->
  Js.toIntegerOrInfinity end_ = Js.PosInfinity ->
  Js.slice l start end_ = skipn (Z.to_nat a) l.
Proof.
  intros Ha Hs He. unfold Js.slice. rewrite Hs, He.
  unfold Js.relativeIndex.
  destruct (a <? 0) eqn:E1; [apply Z.ltb_lt in E1; lia|].
  set (n := List.length l).
  destruct (Z_le_gt_dec (Z.of_nat n) a) as [Hbig|Hsmall].
  - rewrite (skipn_all2 (n := Z.to_nat a)) by (fold n; lia).
    rewrite (skipn_all2 (n := Z.to_nat (Z.min a (Z.of_nat n)))) by (fold n; lia).
    now rewrite firstn_nil.
  - rewrite (Z.min_l a) by lia.
    apply firstn_all2. rewrite length_skipn. fold n. lia.
Qed.


(** Up to a bound that is not positive: all but the last elements. *)
Lemma slice_to_opposite {A : Type} (l : list A) (end_ : Js.number) (k : Z) :
  0 <= k ->
  Js.toIntegerOrInfinity end_ = Js.Integer (- k) ->
  Js.slice l (Js.ofZ 0) end_ =
  if k =? 0 then [] else firstn (List.length l - Z.to_nat k) l.
Proof.
  intros Hk He. unfold Js.slice. rewrite toIntegerOrInfinity_ofZ, He.
  unfold Js.relativeIndex.
  change (0 <? 0) with false. cbv iota.
  rewrite (Z.min_l 0) by lia. change (Z.to_nat 0) with 0%nat. cbn [skipn].
  destruct (Z.eqb_spec k 0) as [->|Hne].
  - change (- 0 <? 0) with false. cbv iota. rewrite Z.min_l by lia. reflexivity.
  - destruct (- k <? 0) eqn:E; [|apply Z.ltb_ge in E; lia].
    f_equal. lia.
Qed.

Lemma slice_to_minus_infinity {A : Type} (l : list A) (start : Js.number) :
  Js.slice l start (Js.Infinity true) = [].
Proof.
  unfold Js.slice. cbn [Js.toIntegerOrInfinity Js.relativeIndex].
  replace (Z.to_nat (0 - _)) with 0%nat; [reflexivity|].
  assert (0 <= Js.relativeIndex (Z.of_nat (List.length l)) (Js.toIntegerOrInfinity start)).
  { unfold Js.relativeIndex. destruct (Js.toIntegerOrInfinity start) as [|i|]; try lia.
    destruct (Z.ltb_spec i 0); lia. }
  lia.
Qed.

Lemma slice_prefix {A : Type} (l : list A) (limit : Js.number) (k : Z) :
  0 <= k -> wholePart k limit = true ->
  Js.slice l (Js.ofZ 0) limit = firstn (Z.to_nat k) l.
Proof.
  intros Hk Hw.
  rewrite (slice_between l (Js.ofZ 0) limit 0 k);
    [ now rewrite Z.sub_0_r | lia | assumption | apply toIntegerOrInfinity_ofZ
    | now apply wholePart_toInteger ].
Qed.

Lemma slice_all {A : Type} (l : list A) :
  Js.slice l (Js.ofZ 0) (Js.Infinity false) = l.
Proof.
  rewrite (slice_from l (Js.ofZ 0) (Js.Infinity false) 0);
    [reflexivity | lia | apply toIntegerOrInfinity_ofZ | reflexivity].
Qed.


Lemma slice_to_nonpositive {A : Type} (l : list A) (n : Z) :
  n <= 0 ->
  Js.slice l (Js.ofZ 0) (Js.ofZ n) =
  if n =? 0 then [] else firstn (List.length l - Z.to_nat (- n)) l.
Proof.
  intros Hn. unfold Js.slice. rewrite !toIntegerOrInfinity_ofZ.
  unfold Js.relativeIndex.
  change (0 <? 0) with false. cbv iota.
  rewrite (Z.min_l 0) by lia. change (Z.to_nat 0) with 0%nat. cbn [skipn].
  destruct (Z.eqb_spec n 0) as [->|Hne].
  - change (0 <? 0) with false. cbv iota. rewrite Z.min_l by lia. reflexivity.
  - destruct (n <? 0) eqn:E; [|apply Z.ltb_ge in E; lia].
    f_equal. lia.
Qed.

(** What the schema of [get_roadmap_items] says of its numbers. *)
Lemma pagination_schema (limit offset : Js.number) (filter : option string) :
  inputSchema (GetRoadmapItems (Some limit) (Some offset) filter) = true ->
  (Js.isNaN limit = false /\ Js.ltb limit (Js.ofZ 1) = false /\
   Js.ltb (Js.ofZ MAX_RESULTS_LIMIT) limit = false) /\
  (Js.isNaN offset = false /\ Js.ltb offset (Js.ofZ 0) = false).
Proof.
  intros Hschema. cbn [inputSchema optAll] in Hschema.
  apply andb_prop in Hschema as [Hschema _].
  apply andb_prop in Hschema as [Hlimit Hoffset].
  apply andb_prop in Hlimit as [Hlimit Hl2].
  apply andb_prop in Hlimit as [Hlnan Hl1].
  apply andb_prop in Hoffset as [Honan Ho].
  unfold zNumber, zMin, zMax in *.
  apply negb_true_iff in Hlnan, Hl1, Hl2, Honan, Ho. auto.
Qed.

(** The result of [get_roadmap_items] after a successful fetch. *)
Lemma pagination_result
    (w : World) (limit offset : Js.number) (filter : option string)
    (cache cache' : Cache) (items : list RoadmapItem) :
  inputSchema (GetRoadmapItems (Some limit) (Some offset) filter) = true ->
  fetchRoadmapItemsV2 w filter cache = (Ok items, cache') ->
  let validatedOffset := Js.max (Js.ofZ 0) offset in
  let sum := Js.add validatedOffset limit in
  let page := Js.slice items validatedOffset sum in
  fst (get_roadmap_items (Some limit) (Some offset) filter w cache) =
  success (Obj [("total", count items);
                ("returned", count page);
                ("offset", Number validatedOffset);
                ("limit", Number limit);
                ("hasMore", Bool (Js.ltb sum (Js.ofZ (Z.of_nat (List.length items)))));
                ("items", Items page)]) /\
  notNegative offset /\ notNegative sum /\
  Js.eqb validatedOffset offset = true /\
  Js.toIntegerOrInfinity validatedOffset = Js.toIntegerOrInfinity offset.
Proof.
  intros Hschema Hfetch validatedOffset sum page.
  destruct (pagination_schema limit offset filter Hschema)
    as ((Hlnan & Hl1 & Hl2) & Honan & Ho).
  assert (Hnl : notNegative limit)
    by (apply (notNegative_above limit 1); [lia | assumption..]).
  assert (Hno : notNegative offset) by (apply notNegative_iff; auto).
  destruct (max_zero offset Hno) as (Hnv & Heqb & Hint).
  split; [|split; [exact Hno | split; [now apply add_notNegative | split; assumption]]].
  unfold get_roadmap_items. rewrite Hfetch. cbn [fst orDefault].
  rewrite (min_below limit MAX_RESULTS_LIMIT) by assumption. reflexivity.
Qed.

(** The page between the whole parts of its bounds. *)
Lemma pagination_page
    (limit offset : Js.number) (filter : option string) (items : list RoadmapItem)
    (a b : Z) :
  inputSchema (GetRoadmapItems (Some limit) (Some offset) filter) = true ->
  let validatedOffset := Js.max (Js.ofZ 0) offset in
  let sum := Js.add validatedOffset limit in
  wholePart a offset = true -> wholePart b sum = true ->
  0 <= a /\ 0 <= b /\
  Js.slice items validatedOffset sum =
  firstn (Z.to_nat (b - a)) (skipn (Z.to_nat a) items).
Proof.
  intros Hschema validatedOffset sum Ha Hb.
  destruct (pagination_schema limit offset filter Hschema)
    as ((Hlnan & Hl1 & Hl2) & Honan & Ho).
  assert (Hnl : notNegative limit)
    by (apply (notNegative_above limit 1); [lia | assumption..]).
  assert (Hno : notNegative offset) by (apply notNegative_iff; auto).
  destruct (max_zero offset Hno) as (Hnv & Heqb & Hint).
  assert (Hns : notNegative sum) by (apply add_notNegative; assumption).
  pose proof (wholePart_nonneg a offset Ho Ha) as Ha0.
  pose proof (wholePart_nonneg b sum (proj2 (proj1 (notNegative_iff sum) Hns)) Hb) as Hb0.
  split; [assumption|]. split; [assumption|].
  apply slice_between; try assumption.
  - unfold validatedOffset. rewrite Hint. now apply wholePart_toInteger.
  - now apply wholePart_toInteger.
Qed.

(** Integer arguments: the bounds are the integers themselves. *)
Lemma pagination_integers (l o : Z) (filter : option string) :
  inputSchema (GetRoadmapItems (Some (Js.ofZ l)) (Some (Js.ofZ o)) filter) = true ->
  o + l < 2 ^ 53 ->
  1 <= l <= 1000 /\ 0 <= o /\
  Js.max (Js.ofZ 0) (Js.ofZ o) = Js.ofZ o /\
  Js.add (Js.max (Js.ofZ 0) (Js.ofZ o)) (Js.ofZ l) = Js.ofZ (o + l).
Proof.
  intros Hschema Hsum.
  destruct (pagination_schema _ _ filter Hschema) as ((_ & Hl1 & Hl2) & _ & Ho).
  rewrite ltb_ofZ in Hl1, Hl2, Ho. apply Z.ltb_ge in Hl1, Hl2, Ho.
  unfold MAX_RESULTS_LIMIT in Hl2.
  assert (Hv : Js.max (Js.ofZ 0) (Js.ofZ o) = Js.ofZ o).
  { unfold Js.max. cbn [Js.isNaN Js.ofZ orb].
    fold (Js.ofZ 0). fold (Js.ofZ o). rewrite ltb_ofZ.
    destruct (Z.ltb_spec 0 o); [reflexivity | f_equal; lia]. }
  split; [lia|]. split; [lia|]. split; [exact Hv|].
  rewrite Hv. apply add_ofZ. lia.
Qed.




(** ** Handlers and the cache *)

(** Every handler leaves the cache exactly as its fetch leaves it. *)
Lemma callTool_cache (call : ToolCall) (w : World) (cache : Cache) :
  snd (callTool call w cache) = snd (fetchRoadmapItemsV2 w (builtFilter call) cache).
Proof.
  destruct call; unfold callTool, builtFilter;
    [ unfold get_roadmap_items | unfold search_roadmap | unfold get_roadmap_item
    | unfold filter_by_product | unfold filter_by_release_phase
    | unfold filter_by_status | unfold filter_by_date | unfold filter_roadmap ];
    cbv zeta;
    match goal with
    | |- context [fetchRoadmapItemsV2 ?w ?f ?c] =>
        destruct (fetchRoadmapItemsV2 w f c) as [[items|e] c']
    end; try reflexivity.
  destruct items; reflexivity.
Qed.

(** The server keeps its cache within [cacheOk]. *)
Lemma callTool_keeps_cacheOk (call : ToolCall) (w : World) (cache : Cache) :
  cacheOk cache -> cacheOk (snd (callTool call w cache)).
Proof.
  intros Hok. rewrite callTool_cache. unfold fetchRoadmapItemsV2.
  destruct (sanitizeOptional (builtFilter call)) as [sf|e]; [|exact Hok].
  destruct (cacheLookup _ _ _); [exact Hok|].
  destruct (fetchItems w sf); [|exact Hok].
  now apply cacheStore_ok.
Qed.

(** A handler whose fetch throws returns an error-flagged result. *)
Lemma callTool_throw (call : ToolCall) (w : World) (cache cache' : Cache) (e : Exn) :
  fetchRoadmapItemsV2 w (builtFilter call) cache = (Throw e, cache') ->
  isError (fst (callTool call w cache)) = true.
Proof.
  intros H. destruct call; unfold callTool, builtFilter in *;
    [ unfold get_roadmap_items | unfold search_roadmap | unfold get_roadmap_item
    | unfold filter_by_product | unfold filter_by_release_phase
    | unfold filter_by_status | unfold filter_by_date | unfold filter_roadmap ];
    cbv zeta; rewrite H; reflexivity.
Qed.

Lemma fetch_throw_keeps_cache (w : World) (filter : option string) (cache : Cache) (e : Exn) :
  fst (fetchRoadmapItemsV2 w filter cache) = Throw e ->
  snd (fetchRoadmapItemsV2 w filter cache) = cache.
Proof.
  unfold fetchRoadmapItemsV2.
  destruct (sanitizeOptional filter) as [sf|e1]; [|reflexivity].
  destruct (cacheLookup _ _ _); [reflexivity|].
  destruct (fetchItems w sf); [discriminate | reflexivity].
Qed.

Lemma fetchItems_failed (w : World) (sanitizedFilter : option string) :
  upstreamFailed (fetch w (requestUrl sanitizedFilter)) = true ->
  exists e, fetchItems w sanitizedFilter = Throw e.
Proof.
  unfold fetchItems, fetchWithTimeout, upstreamFailed.
  destruct (fetch w (requestUrl sanitizedFilter)) as [response|e|]; eauto.
  destruct (ok response); simpl; eauto.
  destruct (json response); [discriminate | eauto].
Qed.

Lemma fetchItems_ok (w : World) (sanitizedFilter : option string) (items : list RoadmapItem) :
  fetchItems w sanitizedFilter = Ok items ->
  upstreamFailed (fetch w (requestUrl sanitizedFilter)) = false.
Proof.
  intros H. destruct (upstreamFailed _) eqn:E; [|reflexivity].
  destruct (fetchItems_failed w sanitizedFilter E) as [e He]. congruence.
Qed.

(** C6. When the upstream request for a call's filter fails (timer abort,
    rejection, non-success status, undecodable body), the fetch and the
    handler leave the cache as it was, and on a cache miss the fetch throws
    (the timeout message after an abort).  In general a fetch that throws
    leaves the cache unchanged, and the cache changes only after an upstream
    call that did not fail. *)
Theorem failed_fetch_keeps_cache
    (w : World) (call : ToolCall) (sanitizedFilter : option string) (cache : Cache) :
  sanitizeOptional (builtFilter call) = Ok sanitizedFilter ->
  upstreamFailed (fetch w (requestUrl sanitizedFilter)) = true ->
  let filter := builtFilter call in
  snd (fetchRoadmapItemsV2 w filter cache) = cache /\
  snd (callTool call w cache) = cache /\
  (cacheLookup (now_check w) (cacheKeyOf sanitizedFilter) cache = None ->
     (exists e, fetchRoadmapItemsV2 w filter cache = (Throw e, cache)) /\
     isError (fst (callTool call w cache)) = true /\
     (fetch w (requestUrl sanitizedFilter) = Aborted ->
        fetchRoadmapItemsV2 w filter cache =
        (Throw (JsError "Request timeout after 30000ms"), cache))) /\
  (forall w' f c e,
     fst (fetchRoadmapItemsV2 w' f c) = Throw e -> snd (fetchRoadmapItemsV2 w' f c) = c) /\
  (forall w' f c,
     snd (fetchRoadmapItemsV2 w' f c) <> c ->
     exists sf, sanitizeOptional f = Ok sf /\
                upstreamFailed (fetch w' (requestUrl sf)) = false).
Proof.
  intros Hsan Hfail filter.
  destruct (fetchItems_failed w sanitizedFilter Hfail) as [e He].
  assert (Hcache : snd (fetchRoadmapItemsV2 w filter cache) = cache).
  { unfold fetchRoadmapItemsV2, filter. rewrite Hsan.
    destruct (cacheLookup _ _ _); [reflexivity|]. now rewrite He. }
  split; [exact Hcache|].
  split; [rewrite callTool_cache; exact Hcache|].
  split; [|split].
  - intros Hmiss.
    assert (Hthrow : fetchRoadmapItemsV2 w filter cache = (Throw e, cache)).
    { unfold fetchRoadmapItemsV2, filter. rewrite Hsan, Hmiss, He. reflexivity. }
    split; [eauto|]. split; [exact (callTool_throw call w cache cache e Hthrow)|].
    intros Habort. rewrite Hthrow. do 2 f_equal.
    unfold fetchItems, fetchWithTimeout in He. rewrite Habort in He.
    now inversion He.
  - exact fetch_throw_keeps_cache.
  - intros w' f c Hchanged. unfold fetchRoadmapItemsV2 in Hchanged.
    destruct (sanitizeOptional f) as [sf|e1]; [|now contradiction Hchanged].
    exists sf. split; [reflexivity|].
    destruct (cacheLookup _ _ _); [now contradiction Hchanged|].
    destruct (fetchItems w' sf) as [items|e2] eqn:E; [|now contradiction Hchanged].
    exact (fetchItems_ok w' sf items E).
Qed.

Lemma failed_fetch_keeps_cache_witness :
  let w := constWorld 0 Aborted in
  let cache := storeAll (map sampleEntry (seq 0 3)) JsMap.empty in
  snd (callTool (FilterByStatus StatusLaunched None) w cache) = cache /\
  fetchRoadmapItemsV2 w (Some "status eq 'Launched'") cache =
    (Throw (JsError "Request timeout after 30000ms"), cache).
Proof.
  pose (w := constWorld 0 Aborted).
  pose (cache := storeAll (map sampleEntry (seq 0 3)) JsMap.empty).
  destruct (failed_fetch_keeps_cache w (FilterByStatus StatusLaunched None)
              (Some "status eq 'Launched'") cache eq_refl eq_refl)
    as (_ & Hcall & Hmiss & _).
  split; [exact Hcall|].
  destruct (Hmiss eq_refl) as (_ & _ & Habort).
  exact (Habort eq_refl).
Defined.

(** ** Result envelopes *)

(** C7, as the code has it.  After a successful fetch, six handlers return
    an object with [total] (all fetched items), [returned] (the items after
    slicing) and [items]; [get_roadmap_items] adds [offset], [limit] and
    [hasMore], [filter_by_product] adds [hasMore].  [search_roadmap] returns
    [keyword], [found] and [items] and neither [total] nor [returned];
    [get_roadmap_item] returns the first item itself. *)
Theorem success_envelope
    (w : World) (call : ToolCall) (cache cache' : Cache) (items : list RoadmapItem) :
  fetchRoadmapItemsV2 w (builtFilter call) cache = (Ok items, cache') ->
  let r := fst (callTool call w cache) in
  let listing :=
    isError r = false /\
    field "total" r = Some (count items) /\
    exists returned,
      field "items" r = Some (Items returned) /\ field "returned" r = Some (count returned) in
  match call with
  | GetRoadmapItems _ _ _ =>
      listing /\ hasField "offset" r = true /\ hasField "limit" r = true /\
      hasField "hasMore" r = true
  | FilterByProduct _ _ => listing /\ hasField "hasMore" r = true
  | FilterByReleasePhase _ _ => listing
  | FilterByStatus _ _ => listing
  | FilterByDate _ _ _ => listing
  | FilterRoadmap _ _ => listing
  | SearchRoadmap keyword _ =>
      isError r = false /\
      field "keyword" r = Some (Str keyword) /\
      (exists found,
         field "items" r = Some (Items found) /\ field "found" r = Some (count found)) /\
      hasField "total" r = false /\ hasField "returned" r = false
  | GetRoadmapItem _ =>
      match items with
      | item :: _ => r = success (Item item)
      | [] => isError r = true
      end
  end.
Proof.
  intros H r listing.
  destruct call; unfold listing, r, callTool, builtFilter in *;
    [ unfold get_roadmap_items | unfold search_roadmap | unfold get_roadmap_item
    | unfold filter_by_product | unfold filter_by_release_phase
    | unfold filter_by_status | unfold filter_by_date | unfold filter_roadmap ];
    cbv zeta; rewrite H; cbn [fst];
    try (destruct items; reflexivity);
    repeat (split; try reflexivity);
    eexists; split; reflexivity.
Qed.

Lemma success_envelope_witness :
  let w := constWorld 0 (Resolved (okResponse (sampleItems 4))) in
  let r := fst (callTool (FilterByStatus StatusLaunched (Some (Js.ofZ 3))) w JsMap.empty) in
  isError r = false /\
  field "total" r = Some (Num 4) /\
  exists returned,
    field "items" r = Some (Items returned) /\ field "returned" r = Some (count returned).
Proof.
  exact (success_envelope (constWorld 0 (Resolved (okResponse (sampleItems 4))))
           (FilterByStatus StatusLaunched (Some (Js.ofZ 3))) JsMap.empty
           (snd (fetchRoadmapItemsV2 (constWorld 0 (Resolved (okResponse (sampleItems 4))))
                   (Some "status eq 'Launched'") JsMap.empty))
           (sampleItems 4) eq_refl).
Defined.

(** C7 as stated fails: successful calls of [search_roadmap] and
    [get_roadmap_item] whose results have no [total], [returned] (and for
    the latter no [items]) field. *)
Lemma success_envelope_counterexample :
  let w := constWorld 0 (Resolved (okResponse (sampleItems 2))) in
  let found := fst (callTool (SearchRoadmap "copilot" None) w JsMap.empty) in
  let single := fst (callTool (GetRoadmapItem "0") w JsMap.empty) in
  (isError found = false /\ hasField "total" found = false /\
   hasField "returned" found = false /\
   field "found" found = Some (Num 2)) /\
  (isError single = false /\ hasField "total" single = false /\
   hasField "returned" single = false /\ hasField "items" single = false /\
   content single = Json (Item (sampleItem 0))).
Proof. vm_compute. repeat split. Qed.

(** C8 at the failing input: [filter_roadmap] with a filter the sanitizer
    rejects answers with the plain text of the message; the result is no
    object and holds none of the call's arguments, whereas
    [get_roadmap_items] on the same filter returns them under [data]. *)
Theorem plain_error_has_no_arguments (w : World) (cache : Cache) :
  let plain := fst (callTool (FilterRoadmap "drop" (Some (Js.ofZ 5))) w cache) in
  let structured := fst (callTool (GetRoadmapItems (Some (Js.ofZ 5)) None (Some "drop")) w cache) in
  plain = {| content := Text "Error: Invalid filter: potentially dangerous keywords detected";
             isError := true |} /\
  hasField "data" plain = false /\
  isError structured = true /\
  field "message" structured =
    Some (Str "Invalid filter: potentially dangerous keywords detected") /\
  field "data" structured =
    Some (Obj [("filter", Str "drop"); ("limit", Num 5); ("offset", Num 0)]).
Proof. repeat split. Qed.

(** What every handler does with a thrown error: it returns a result
    flagged as an error and leaves the cache alone; only two of them keep
    the arguments. *)
Lemma handler_catches
    (w : World) (call : ToolCall) (cache cache' : Cache) (e : Exn) :
  fetchRoadmapItemsV2 w (builtFilter call) cache = (Throw e, cache') ->
  let r := fst (callTool call w cache) in
  isError r = true /\
  match call with
  | GetRoadmapItems _ _ _ => hasField "message" r = true /\ hasField "data" r = true
  | FilterByProduct _ _ => hasField "message" r = true /\ hasField "data" r = true
  | _ => r = plainError e
  end.
Proof.
  intros H r. split; [exact (callTool_throw call w cache cache' e H)|].
  destruct call; unfold r, callTool, builtFilter in *;
    [ unfold get_roadmap_items | unfold search_roadmap | unfold get_roadmap_item
    | unfold filter_by_product | unfold filter_by_release_phase
    | unfold filter_by_status | unfold filter_by_date | unfold filter_roadmap ];
    cbv zeta; rewrite H; cbn [fst]; try reflexivity; split; reflexivity.
Qed.

(** C10. For the five tools whose [limit] has no declared bounds, every
    number passes the schema and the call succeeds.  A limit strictly
    between -1 and 1 (0 and -0.5 among them) returns no item; a limit
    [n <= -1] returns the candidates (the fetched items, or the keyword
    matches) without the last [k] of them, [k] being the whole part of
    [|n|]; [-Infinity] returns no item.  A limit [n >= 1] returns the first
    [k] candidates, [k] being the whole part of [n], and [+Infinity] all of
    them. *)
Theorem any_limit_is_sliced
    (w : World) (call : ToolCall) (n : Js.number) (cache cache' : Cache)
    (items : list RoadmapItem) :
  unboundedLimit call = Some (Some n) ->
  Js.isNaN n = false ->
  fetchRoadmapItemsV2 w (builtFilter call) cache = (Ok items, cache') ->
  let r := fst (callTool call w cache) in
  let all := candidates call items in
  inputSchema call = true /\
  isError r = false /\
  (Js.ltb (Js.ofZ (-1)) n = true -> Js.ltb n (Js.ofZ 1) = true ->
   field "items" r = Some (Items [])) /\
  (forall k : Z,
     1 <= k -> wholePartOfOpposite k n = true ->
     let kept := firstn (List.length all - Z.to_nat k) all in
     field "items" r = Some (Items kept) /\
     exists dropped,
       all = (kept ++ dropped)%list /\
       List.length dropped = Nat.min (Z.to_nat k) (List.length all)) /\
  (n = Js.Infinity true -> field "items" r = Some (Items [])) /\
  (forall k : Z,
     1 <= k -> wholePart k n = true ->
     field "items" r = Some (Items (firstn (Z.to_nat k) all))) /\
  (n = Js.Infinity false -> field "items" r = Some (Items all)) /\
  (n = Js.Infinity true \/
   (exists k, 1 <= k /\ wholePartOfOpposite k n = true) \/
   (Js.ltb (Js.ofZ (-1)) n = true /\ Js.ltb n (Js.ofZ 1) = true) \/
   (exists k, 1 <= k /\ wholePart k n = true) \/
   n = Js.Infinity false).
Proof.
  intros Hcall Hnan H r all.
  assert (Hr : inputSchema call = true /\ isError r = false /\
               field "items" r = Some (Items (Js.slice all (Js.ofZ 0) n))).
  { destruct call; try discriminate; simpl in Hcall; injection Hcall as ->;
      unfold r, all, callTool, builtFilter, candidates in *;
      [ unfold search_roadmap | unfold filter_by_release_phase
      | unfold filter_by_status | unfold filter_by_date | unfold filter_roadmap ];
      cbv zeta; rewrite H; unfold inputSchema, optAll, zNumber; rewrite Hnan;
      repeat split. }
  destruct Hr as (Hschema & Hsuccess & Hitems).
  do 2 (split; [assumption|]).
  split; [|split; [|split; [|split; [|split]]]].
  - intros Hlo Hhi. rewrite Hitems.
    rewrite (slice_to_opposite all n 0); [reflexivity | lia |].
    now apply small_toInteger.
  - intros k Hk Hw kept.
    rewrite Hitems.
    rewrite (slice_to_opposite all n k);
      [| lia | apply wholePartOfOpposite_toInteger; [lia | assumption]].
    destruct (Z.eqb_spec k 0); [lia|].
    split; [reflexivity|].
    exists (skipn (List.length all - Z.to_nat k) all).
    split; [unfold kept; now rewrite firstn_skipn|].
    rewrite length_skipn. lia.
  - intros ->. rewrite Hitems. now rewrite slice_to_minus_infinity.
  - intros k Hk Hw. rewrite Hitems. now rewrite (slice_prefix all n k) by (try lia; assumption).
  - intros ->. rewrite Hitems. now rewrite slice_all.
  - destruct n as [|negative|m e]; [discriminate | |].
    + destruct negative; [now left | now right; right; right; right].
    + right. pose proof (den_pos e) as Hd.
      destruct (Z_le_gt_dec (num m e) (- den e)) as [Hneg|Hmid].
      * left. exists (- Z.quot (num m e) (den e)).
        assert (Hq : Z.quot (num m e) (den e) = - ((- num m e) / den e)).
        { replace (num m e) with (- (- num m e)) at 1 by lia.
          rewrite Z.quot_opp_l by lia. rewrite Z.quot_div_nonneg by lia. reflexivity. }
        pose proof (Z.mul_div_le (- num m e) (den e) Hd).
        pose proof (Z.mul_succ_div_gt (- num m e) (den e) Hd).
        assert (1 <= (- num m e) / den e).
        { apply Z.div_le_lower_bound; lia. }
        rewrite Hq, Z.opp_involutive. split; [assumption|].
        unfold wholePartOfOpposite. rewrite ltb_ofZ_Finite, leb_Finite_ofZ.
        apply andb_true_intro. split; [apply Z.ltb_lt | apply Z.leb_le]; lia.
      * right. destruct (Z_lt_le_dec (num m e) (den e)) as [Hsmall|Hbig].
        -- left. rewrite ltb_ofZ_Finite, ltb_Finite_ofZ.
           split; apply Z.ltb_lt; lia.
        -- right; left. exists (Js.truncate m e).
           assert (H0 : Js.ltb (Js.Finite m e) (Js.ofZ 0) = false).
           { rewrite ltb_Finite_ofZ. apply Z.ltb_ge. lia. }
           destruct (wholePart_truncate m e H0) as [Hk Hw].
           split; [|exact Hw].
           assert (H1 : Js.ltb (Js.Finite m e) (Js.ofZ 1) = false).
           { rewrite ltb_Finite_ofZ. apply Z.ltb_ge. lia. }
           apply andb_prop in Hw as [_ Hlt].
           rewrite ltb_Finite_ofZ in Hlt. apply Z.ltb_lt in Hlt. nia.
Qed.

Lemma any_limit_is_sliced_witness :
  let w := constWorld 0 (Resolved (okResponse (sampleItems 5))) in
  field "items"
    (fst (callTool (SearchRoadmap "COPILOT" (Some (Js.ofZ (-2)))) w JsMap.empty)) =
    Some (Items (sampleItems 3)) /\
  field "items"
    (fst (callTool (FilterByStatus StatusLaunched (Some (Js.ofZ 0))) w JsMap.empty)) =
    Some (Items []) /\
  field "items"
    (fst (callTool (FilterByStatus StatusLaunched (Some (Js.Finite (-5) (-1)))) w
            JsMap.empty)) =
    Some (Items (sampleItems 3)).
Proof.
  pose (w := constWorld 0 (Resolved (okResponse (sampleItems 5)))).
  split; [|split].
  - destruct (any_limit_is_sliced w (SearchRoadmap "COPILOT" (Some (Js.ofZ (-2))))
                (Js.ofZ (-2)) JsMap.empty
                (snd (fetchRoadmapItemsV2 w None JsMap.empty)) (sampleItems 5)
                eq_refl eq_refl eq_refl) as (_ & _ & _ & Hneg & _).
    assert (Hk : 1 <= 2) by lia.
    exact (proj1 (Hneg 2 Hk eq_refl)).
  - destruct (any_limit_is_sliced w (FilterByStatus StatusLaunched (Some (Js.ofZ 0)))
                (Js.ofZ 0) JsMap.empty
                (snd (fetchRoadmapItemsV2 w (Some "status eq 'Launched'") JsMap.empty))
                (sampleItems 5) eq_refl eq_refl eq_refl) as (_ & _ & Hzero & _).
    exact (Hzero eq_refl eq_refl).
  - destruct (any_limit_is_sliced w
                (FilterByStatus StatusLaunched (Some (Js.Finite (-5) (-1))))
                (Js.Finite (-5) (-1)) JsMap.empty
                (snd (fetchRoadmapItemsV2 w (Some "status eq 'Launched'") JsMap.empty))
                (sampleItems 5) eq_refl eq_refl eq_refl) as (_ & _ & _ & Hneg & _).
    assert (Hk : 1 <= 2) by lia.
    exact (proj1 (Hneg 2 Hk eq_refl)).
Defined.

(** The claim as worded fails on a negative limit that is no integer: with
    limit -0.5 the call succeeds and returns none of the five fetched items,
    not all of them but the last [|n|]. *)
Lemma any_limit_is_sliced_counterexample :
  let w := constWorld 0 (Resolved (okResponse (sampleItems 5))) in
  let n := Js.Finite (-1) (-1) in
  let call := FilterByStatus StatusLaunched (Some n) in
  let r := fst (callTool call w JsMap.empty) in
  inputSchema call = true /\
  Js.ltb n (Js.ofZ 0) = true /\
  Js.ltb (Js.ofZ (-1)) n = true /\
  isError r = false /\
  field "total" r = Some (Num 5) /\
  field "returned" r = Some (Num 0) /\
  field "items" r = Some (Items []).
Proof. vm_compute. repeat split; reflexivity. Qed.

(** ** Strings *)

Module StringFacts.

Lemma append_nil_r (s : string) : s ++ "" = s.
Proof. induction s; simpl; congruence. Qed.

Lemma append_assoc (s t u : string) : (s ++ t) ++ u = s ++ t ++ u.
Proof. induction s; simpl; congruence. Qed.


Lemma head_append (s t : string) :
  Js.head (s ++ t) = match Js.head s with Some c => Some c | None => Js.head t end.
Proof. now destruct s. Qed.

Lemma toLowerCase_append (s t : string) :
  Js.toLowerCase (s ++ t) = Js.toLowerCase s ++ Js.toLowerCase t.
Proof. induction s; simpl; congruence. Qed.


Lemma replaceAll_append (c : ascii) (by_ s t : string) :
  Js.replaceAll c by_ (s ++ t) = Js.replaceAll c by_ s ++ Js.replaceAll c by_ t.
Proof.
  induction s as [|d s IH]; simpl; [reflexivity|].
  destruct (Ascii.eqb d c); simpl; rewrite IH; [now rewrite append_assoc | reflexivity].
Qed.

Lemma in_allChars (c : ascii) : In c allChars.
Proof.
  unfold allChars. rewrite <- (ascii_nat_embedding c).
  apply in_map, in_seq. pose proof (nat_ascii_bounded c). lia.
Qed.

Lemma forall_chars (P : ascii -> bool) :
  forallb P allChars = true -> forall c, P c = true.
Proof. intros H c. exact (proj1 (forallb_forall P allChars) H c (in_allChars c)). Qed.

(** Under the [i] flag a lower-case pattern letter matches exactly the code
    units that [toLowerCase] sends to it, and these are word characters. *)
Lemma charMatches_lower (p c : ascii) :
  isLowerLetter p = true ->
  Js.charMatches true p c = Ascii.eqb (Js.toLowerCaseChar c) p.
Proof.
  revert p c.
  assert (H : forallb (fun p => forallb (fun c =>
              implb (isLowerLetter p)
                (Bool.eqb (Js.charMatches true p c) (Ascii.eqb (Js.toLowerCaseChar c) p)))
              allChars) allChars = true) by (vm_compute; reflexivity).
  intros p c Hp.
  pose proof (forall_chars _ (forall_chars _ H p) c) as Hpc. cbv beta in Hpc.
  rewrite Hp in Hpc. simpl in Hpc. now apply Bool.eqb_prop.
Qed.

Lemma lower_is_word (c : ascii) :
  isLowerLetter (Js.toLowerCaseChar c) = true -> Js.isWordChar c = true.
Proof.
  revert c.
  assert (H : forallb (fun c =>
              implb (isLowerLetter (Js.toLowerCaseChar c)) (Js.isWordChar c))
              allChars = true) by (vm_compute; reflexivity).
  intros c Hc. pose proof (forall_chars _ H c) as Hi. cbv beta in Hi.
  now rewrite Hc in Hi.
Qed.

End StringFacts.

(** ** The matcher on the blocklist pattern *)

Module RegexFacts.
Import StringFacts.

Lemma run_literal (w : string) (prev : option ascii) (s : string) :
  Js.run true (Js.literal w) (prev, s) =
  match splitLiteral w s with
  | Some (m, rest) => [(prevAfter prev m, rest)]
  | None => []
  end.
Proof.
  revert prev s. induction w as [|p w IH]; intros prev s; [reflexivity|].
  cbn [Js.literal Js.run snd splitLiteral].
  destruct s as [|c s]; [reflexivity|].
  destruct (Js.charMatches true p c); [|reflexivity].
  cbn [flat_map]. rewrite app_nil_r, IH.
  destruct (splitLiteral w s) as [[m rest]|]; [|reflexivity].
  unfold prevAfter. simpl. now destruct (lastChar m).
Qed.

Lemma splitLiteral_spec (w s m rest : string) :
  allLowerLetters w = true ->
  splitLiteral w s = Some (m, rest) <-> s = m ++ rest /\ Js.toLowerCase m = w.
Proof.
  revert s m. induction w as [|p w IH]; intros s m Hw.
  - simpl. split.
    + intros H. injection H as <- <-. now split.
    + intros [-> Hm]. destruct m; [reflexivity | discriminate].
  - simpl in Hw. apply andb_prop in Hw as [Hp Hw]. cbn [splitLiteral]. split.
    + destruct s as [|c s]; [discriminate|].
      rewrite (charMatches_lower p c Hp).
      destruct (Ascii.eqb_spec (Js.toLowerCaseChar c) p) as [Hc|]; [|discriminate].
      destruct (splitLiteral w s) as [[m' rest']|] eqn:E; [|discriminate].
      intros H. injection H as <- <-.
      apply (IH s m' Hw) in E as [-> Hm']. simpl. now rewrite Hc, Hm'.
    + intros [-> Hm]. destruct m as [|c m']; [discriminate|].
      simpl in Hm. injection Hm as Hc Hm'. cbn [append].
      rewrite (charMatches_lower p c Hp), Hc, Ascii.eqb_refl.
      now rewrite (proj2 (IH (m' ++ rest) m' Hw) (conj eq_refl Hm')).
Qed.

Lemma in_run_group (st st' : Js.state) :
  In st' (Js.run true dangerousGroup st) <->
  exists kw, In kw blocklist /\ In st' (Js.run true (Js.literal kw) st).
Proof.
  unfold dangerousGroup, blocklist. cbn [Js.run]. rewrite !in_app_iff. split.
  - intros H.
    repeat (destruct H as [H|H]; [eexists; split; [|exact H]; simpl; tauto|]).
    eexists; split; [|exact H]; simpl; tauto.
  - intros (kw & Hin & H). cbn [In] in Hin.
    repeat (destruct Hin as [<-|Hin]; [tauto|]). contradiction.
Qed.

Lemma blocklist_lower (kw : string) :
  In kw blocklist -> allLowerLetters kw = true /\ kw <> "".
Proof.
  unfold blocklist. cbn [In]. intros H.
  repeat (destruct H as [<-|H]; [split; [reflexivity | discriminate]|]). contradiction.
Qed.

(** A word spelling a keyword starts and ends with a word character. *)
Lemma keyword_edges (kw m : string) :
  allLowerLetters kw = true -> kw <> "" -> Js.toLowerCase m = kw ->
  Js.isWordCharOpt (Js.head m) = true /\ Js.isWordCharOpt (lastChar m) = true.
Proof.
  intros Hkw Hne <-. split.
  - destruct m as [|c m]; [contradiction|]. simpl in *.
    apply andb_prop in Hkw as [Hc _]. now apply lower_is_word.
  - induction m as [|c m IH]; [contradiction|]. simpl in Hkw.
    apply andb_prop in Hkw as [Hc Hm].
    destruct m as [|d m]; [simpl; now apply lower_is_word|].
    assert (IH' : Js.isWordCharOpt (lastChar (String d m)) = true)
      by (apply IH; first [exact Hm | discriminate]).
    change (lastChar (String c (String d m)))
      with (match lastChar (String d m) with Some e => Some e | None => Some c end).
    now destruct (lastChar (String d m)).
Qed.

(** A match of the whole pattern at one position. *)
Lemma matchesAt_dangerous (prev : option ascii) (s : string) :
  Js.matchesAt true (Js.source dangerousPatterns) (prev, s) = true <->
  Js.isWordCharOpt prev = false /\
  exists kw m rest,
    In kw blocklist /\ s = m ++ rest /\ Js.toLowerCase m = kw /\
    Js.isWordCharOpt (Js.head rest) = false.
Proof.
  assert (Hne : forall st,
             Js.matchesAt true (Js.source dangerousPatterns) st = true <->
             exists st', In st' (Js.run true (Js.source dangerousPatterns) st)).
  { intros st. unfold Js.matchesAt.
    destruct (Js.run true (Js.source dangerousPatterns) st) as [|x l].
    - split; [discriminate | intros [? []]].
    - split; [intros _; exists x; now left | reflexivity]. }
  rewrite Hne. cbn [dangerousPatterns Js.source Js.run fst snd]. split.
  - intros [st' H].
    destruct (xorb (Js.isWordCharOpt prev) (Js.isWordCharOpt (Js.head s))) eqn:Ex;
      [|contradiction].
    cbn [flat_map] in H. rewrite app_nil_r in H.
    apply in_flat_map in H as (mid & Hmid & Hend).
    apply in_run_group in Hmid as (kw & Hkw & Hlit).
    rewrite run_literal in Hlit.
    destruct (splitLiteral kw s) as [[m rest]|] eqn:E; [|contradiction].
    destruct Hlit as [<-|[]].
    destruct (blocklist_lower kw Hkw) as [Hlow Hnonempty].
    apply (splitLiteral_spec kw s m rest Hlow) in E as [-> Hm].
    destruct (keyword_edges kw m Hlow Hnonempty Hm) as [Hhead Hlast].
    rewrite head_append in Ex.
    destruct (Js.head m) as [c|] eqn:Eh; [|discriminate]. rewrite Hhead in Ex.
    split; [now destruct (Js.isWordCharOpt prev)|].
    exists kw, m, rest. repeat (split; [assumption || reflexivity|]).
    cbn [Js.run fst snd] in Hend. unfold prevAfter in Hend.
    destruct (lastChar m) as [d|]; [|discriminate]. rewrite Hlast in Hend.
    destruct (Js.isWordCharOpt (Js.head rest)); [contradiction | reflexivity].
  - intros (Hprev & kw & m & rest & Hkw & -> & Hm & Hrest).
    destruct (blocklist_lower kw Hkw) as [Hlow Hnonempty].
    destruct (keyword_edges kw m Hlow Hnonempty Hm) as [Hhead Hlast].
    exists (prevAfter prev m, rest).
    rewrite head_append, Hprev.
    destruct (Js.head m) as [c|] eqn:Eh; [|discriminate]. rewrite Hhead.
    cbn [xorb flat_map]. rewrite app_nil_r.
    apply in_flat_map. exists (prevAfter prev m, rest). split.
    + apply in_run_group. exists kw. split; [assumption|].
      rewrite run_literal.
      rewrite (proj2 (splitLiteral_spec kw (m ++ rest) m rest Hlow) (conj eq_refl Hm)).
      now left.
    + cbn [Js.run fst snd]. unfold prevAfter.
      destruct (lastChar m) as [d|]; [|discriminate].
      rewrite Hlast, Hrest. now left.
Qed.

Lemma search_spec (r : Js.regex) (prev : option ascii) (s : string) :
  Js.search true r prev s = true <->
  exists before rest,
    s = before ++ rest /\ Js.matchesAt true r (prevAfter prev before, rest) = true.
Proof.
  revert prev. induction s as [|c s IH]; intros prev; simpl.
  - rewrite orb_false_r. split.
    + intros H. now exists "", "".
    + intros (before & rest & Heq & H).
      destruct before; [|discriminate]. simpl in Heq. now subst rest.
  - rewrite orb_true_iff, IH. split.
    + intros [H|(before & rest & -> & H)].
      * now exists "", (String c s).
      * exists (String c before), rest. split; [reflexivity|].
        unfold prevAfter in *. simpl. now destruct (lastChar before).
    + intros (before & rest & Heq & H). destruct before as [|d before].
      * left. simpl in Heq. now subst rest.
      * right. simpl in Heq. injection Heq as <- ->.
        exists before, rest. split; [reflexivity|].
        unfold prevAfter in *. simpl in H. now destruct (lastChar before).
Qed.

(** The pattern tests true exactly on the strings that contain a
    blocklisted keyword as a whole word, whatever the case. *)
Lemma test_dangerous (s : string) :
  Js.test dangerousPatterns s = true <-> containsBlockedWord s.
Proof.
  unfold Js.test. change (Js.ignoreCase dangerousPatterns) with true.
  rewrite search_spec. unfold containsBlockedWord, occursAsWord. split.
  - intros (before & rest & -> & H).
    apply matchesAt_dangerous in H as (Hprev & kw & m & rest' & Hkw & -> & Hm & Hrest).
    exists kw. split; [assumption|]. exists before, m, rest'.
    unfold prevAfter in Hprev. repeat split; try assumption.
    now destruct (lastChar before).
  - intros (kw & Hkw & before & m & rest & -> & Hm & Hbefore & Hrest).
    exists before, (m ++ rest). split; [reflexivity|].
    apply matchesAt_dangerous. split.
    + unfold prevAfter. now destruct (lastChar before).
    + now exists kw, m, rest.
Qed.

End RegexFacts.

Module SanitizerFacts.
Import StringFacts.

Lemma allOf_removeAll (s : string) : allOf isKept (Js.removeAll isSemicolonOrBackslash s) = true.
Proof.
  unfold isKept. induction s as [|c s IH]; [reflexivity|]. simpl.
  destruct (isSemicolonOrBackslash c) eqn:E; [exact IH|]. simpl. now rewrite E.
Qed.

Lemma removeAll_clean (s : string) :
  allOf isKept s = true -> Js.removeAll isSemicolonOrBackslash s = s.
Proof.
  unfold isKept. induction s as [|c s IH]; [reflexivity|]. simpl.
  intros H. apply andb_prop in H as [Hc Hs]. apply negb_true_iff in Hc.
  now rewrite Hc, IH.
Qed.

Lemma allOf_trimStart (p : ascii -> bool) (s : string) :
  allOf p s = true -> allOf p (Js.trimStart s) = true.
Proof.
  induction s as [|c s IH]; [reflexivity|]. simpl. intros H.
  destruct (Js.isWhiteSpace c); [|exact H].
  apply andb_prop in H as [_ Hs]. auto.
Qed.

Lemma allOf_trimEnd (p : ascii -> bool) (s : string) :
  allOf p s = true -> allOf p (Js.trimEnd s) = true.
Proof.
  induction s as [|c s IH]; [reflexivity|]. simpl. intros H.
  apply andb_prop in H as [Hc Hs]. specialize (IH Hs).
  destruct (Js.trimEnd s) as [|d t].
  - destruct (Js.isWhiteSpace c); [reflexivity | simpl; now rewrite Hc].
  - change (allOf p (String c (String d t))) with (p c && allOf p (String d t)).
    now rewrite Hc, IH.
Qed.

Lemma head_trimStart (s : string) : isWhiteSpaceOpt (Js.head (Js.trimStart s)) = false.
Proof.
  induction s as [|c s IH]; [reflexivity|]. simpl.
  destruct (Js.isWhiteSpace c) eqn:E; [exact IH | simpl; exact E].
Qed.

Lemma trimStart_fixed (s : string) :
  isWhiteSpaceOpt (Js.head s) = false -> Js.trimStart s = s.
Proof. destruct s as [|c s]; [reflexivity|]. simpl. now intros ->. Qed.

Lemma head_trimEnd (s : string) :
  isWhiteSpaceOpt (Js.head s) = false -> isWhiteSpaceOpt (Js.head (Js.trimEnd s)) = false.
Proof.
  destruct s as [|c s]; [reflexivity|]. simpl. intros Hc.
  destruct (Js.trimEnd s); [rewrite Hc|]; simpl; exact Hc.
Qed.

Lemma lastChar_trimEnd (s : string) : isWhiteSpaceOpt (lastChar (Js.trimEnd s)) = false.
Proof.
  induction s as [|c s IH]; [reflexivity|]. simpl.
  destruct (Js.trimEnd s) as [|d t] eqn:E.
  - destruct (Js.isWhiteSpace c) eqn:Ec; [reflexivity | simpl; exact Ec].
  - change (lastChar (String c (String d t)))
      with (match lastChar (String d t) with Some x => Some x | None => Some c end).
    destruct (lastChar (String d t)) eqn:El; [exact IH|].
    simpl in El. destruct (lastChar t); discriminate.
Qed.

Lemma trimEnd_fixed (s : string) :
  isWhiteSpaceOpt (lastChar s) = false -> Js.trimEnd s = s.
Proof.
  induction s as [|c s IH]; [reflexivity|]. simpl. intros H.
  destruct s as [|d t].
  - simpl in *. now rewrite H.
  - assert (Hs : isWhiteSpaceOpt (lastChar (String d t)) = false).
    { destruct (lastChar (String d t)) eqn:E; [exact H|].
      simpl in E. destruct (lastChar t); discriminate. }
    now rewrite (IH Hs).
Qed.

Lemma trim_shape (s : string) :
  isWhiteSpaceOpt (Js.head (Js.trim s)) = false /\
  isWhiteSpaceOpt (lastChar (Js.trim s)) = false.
Proof.
  unfold Js.trim. split; [apply head_trimEnd, head_trimStart | apply lastChar_trimEnd].
Qed.

Lemma trim_fixed (s : string) :
  isWhiteSpaceOpt (Js.head s) = false -> isWhiteSpaceOpt (lastChar s) = false ->
  Js.trim s = s.
Proof. intros Hh Hl. unfold Js.trim. now rewrite trimStart_fixed, trimEnd_fixed. Qed.

Lemma length_removeAll (p : ascii -> bool) (s : string) :
  (String.length (Js.removeAll p s) <= String.length s)%nat.
Proof. induction s as [|c s IH]; simpl; [lia|]. destruct (p c); simpl; lia. Qed.

Lemma length_trimStart (s : string) :
  (String.length (Js.trimStart s) <= String.length s)%nat.
Proof. induction s as [|c s IH]; simpl; [lia|]. destruct (Js.isWhiteSpace c); simpl; lia. Qed.

Lemma length_trimEnd (s : string) :
  (String.length (Js.trimEnd s) <= String.length s)%nat.
Proof.
  induction s as [|c s IH]; simpl; [lia|].
  destruct (Js.trimEnd s); [destruct (Js.isWhiteSpace c)|]; simpl in *; lia.
Qed.

Lemma stripped_fixed (s : string) : stripped (stripped s) = stripped s.
Proof.
  assert (Hclean : allOf isKept (stripped s) = true)
    by (apply allOf_trimEnd, allOf_trimStart, allOf_removeAll).
  destruct (trim_shape (Js.removeAll isSemicolonOrBackslash s)) as [Hh Hl].
  unfold stripped at 1. rewrite (removeAll_clean _ Hclean).
  now apply trim_fixed.
Qed.

Lemma removeAll_filter (p : ascii -> bool) (s : string) :
  list_ascii_of_string (Js.removeAll p s) =
  List.filter (fun c => negb (p c)) (list_ascii_of_string s).
Proof.
  induction s as [|c s IH]; [reflexivity|]. simpl.
  destruct (p c); simpl; [exact IH | now rewrite IH].
Qed.

Lemma trimStart_split (s : string) :
  exists lead, s = lead ++ Js.trimStart s /\ allOf Js.isWhiteSpace lead = true.
Proof.
  induction s as [|c s (lead & Hs & Hlead)]; [now exists ""|].
  simpl. destruct (Js.isWhiteSpace c) eqn:E.
  - exists (String c lead). simpl. rewrite E, Hlead. now rewrite <- Hs.
  - now exists "".
Qed.

Lemma trimEnd_split (s : string) :
  exists trail, s = Js.trimEnd s ++ trail /\ allOf Js.isWhiteSpace trail = true.
Proof.
  induction s as [|c s (trail & Hs & Htrail)]; [now exists ""|].
  simpl. destruct (Js.trimEnd s) as [|d t].
  - simpl in Hs. subst s. destruct (Js.isWhiteSpace c) eqn:E.
    + exists (String c trail). simpl. now rewrite E, Htrail.
    + now exists trail.
  - exists trail. split; [|exact Htrail]. simpl. f_equal. exact Hs.
Qed.

Lemma trim_split (s : string) :
  exists lead trail,
    s = lead ++ Js.trim s ++ trail /\
    allOf Js.isWhiteSpace lead = true /\ allOf Js.isWhiteSpace trail = true.
Proof.
  destruct (trimStart_split s) as (lead & Hs & Hlead).
  destruct (trimEnd_split (Js.trimStart s)) as (trail & Ht & Htrail).
  exists lead, trail. unfold Js.trim. now rewrite <- Ht, <- Hs.
Qed.

End SanitizerFacts.


(** C3. The sanitizer removes every semicolon and backslash of the filter and
    nothing else, then the white space at both ends; it throws exactly when
    what is left contains a blocklisted keyword as a whole word (whatever the
    letter case), and returns what is left otherwise. *)
Theorem sanitizer_rejects_blocked_words (filter : string) :
  (exists removed,
     withoutSemicolonsAndBackslashes filter removed /\
     trimmedOf removed (stripped filter)) /\
  (containsBlockedWord (stripped filter) <->
   sanitizeODataFilter filter =
     Throw (JsError "Invalid filter: potentially dangerous keywords detected")) /\
  (~ containsBlockedWord (stripped filter) <->
   sanitizeODataFilter filter = Ok (stripped filter)) /\
  sanitizeODataFilter "status eq 'x'; DROP" =
    Throw (JsError "Invalid filter: potentially dangerous keywords detected") /\
  sanitizeODataFilter "status eq 'Launched'" = Ok "status eq 'Launched'" /\
  sanitizeODataFilter "  a;b\c  " = Ok "abc".
Proof.
  split.
  { exists (Js.removeAll isSemicolonOrBackslash filter). split.
    - unfold withoutSemicolonsAndBackslashes.
      rewrite SanitizerFacts.removeAll_filter. apply filter_ext.
      intros c. unfold isSemicolonOrBackslash. apply negb_orb.
    - destruct (SanitizerFacts.trim_split (Js.removeAll isSemicolonOrBackslash filter))
        as (lead & trail & Hs & Hlead & Htrail).
      destruct (SanitizerFacts.trim_shape (Js.removeAll isSemicolonOrBackslash filter))
        as [Hh Hl].
      exists lead, trail. unfold stripped. auto. }
  unfold sanitizeODataFilter. cbv zeta.
  rewrite <- (RegexFacts.test_dangerous (stripped filter)).
  destruct (Js.test dangerousPatterns (stripped filter)).
  - repeat split; try reflexivity; try discriminate; intros H; now contradiction H.
  - repeat split; try reflexivity; try discriminate.
Qed.

(** ** Filters built by the handlers *)

Module FilterFacts.
Import StringFacts.











End FilterFacts.




(** C4 at the failing input: [filter_by_date] puts the date between the
    quote delimiters as it is, so a quote in it ends the literal; the filter
    passes the sanitizer unchanged and is what the cache is keyed by and what
    is sent upstream.  [filter_by_product] doubles the quotes, and
    [get_roadmap_item] uses no delimiters at all. *)
Theorem date_filter_keeps_quotes (limit : option Js.number) :
  let date := "2025-10' or status eq 'Launched" in
  let built := "generalAvailabilityDate eq '2025-10' or status eq 'Launched'" in
  let url :=
    "https://www.microsoft.com/releasecommunications/api/v2/m365?$filter=generalAvailabilityDate%20eq%20'2025-10'%20or%20status%20eq%20'Launched'" in
  builtFilter (FilterByDate date None limit) = Some built /\
  built <> "generalAvailabilityDate eq '" ++ escapeQuotes date ++ "'" /\
  sanitizeODataFilter built = Ok built /\
  requestUrl (Some built) = url /\
  snd (filter_by_date date None limit
         (constWorld 0 (Resolved (okResponse (sampleItems 1)))) JsMap.empty) =
    [(built, {| data := sampleItems 1; timestamp := 0; filter := Some built |})] /\
  productFilter "O'Brien's Tool" = "products/any(p:p eq 'O''Brien''s Tool')" /\
  builtFilter (GetRoadmapItem "1 or id ne 0") = Some "id eq 1 or id ne 0".
Proof.
  cbv zeta. split; [reflexivity|]. split; [discriminate|].
  split; [vm_compute; reflexivity|]. split; [vm_compute; reflexivity|].
  split; [vm_compute; reflexivity|]. split; reflexivity.
Qed.

(** The escaping of [filter_by_product]: every quote of the product is
    doubled, and nothing else changes. *)
Lemma escapeQuotes_spec (s t : string) :
  escapeQuotes (s ++ "'" ++ t) = escapeQuotes s ++ "''" ++ escapeQuotes t /\
  escapeQuotes (s ++ t) = escapeQuotes s ++ escapeQuotes t /\
  (Js.includes s "'" = false -> escapeQuotes s = s).
Proof.
  unfold escapeQuotes. rewrite !StringFacts.replaceAll_append.
  repeat split. induction s as [|c s IH]; [reflexivity|].
  cbn [Js.includes String.prefix Js.replaceAll].
  destruct (Ascii.eqb_spec c "'") as [->|Hne].
  - destruct (ascii_dec "'" "'"); [|contradiction].
    destruct s; discriminate.
  - destruct (ascii_dec "'" c) as [E|_]; [symmetry in E; contradiction|].
    simpl. intros H. now rewrite IH.
Qed.

(* ------------------------------------------------------------------ *)
(** * Further properties of the fetcher and the cache *)

Lemma fetch_miss_ok
    (w : World) (filter sanitizedFilter : option string) (cache : Cache)
    (items : list RoadmapItem) :
  sanitizeOptional filter = Ok sanitizedFilter ->
  cacheLookup (now_check w) (cacheKeyOf sanitizedFilter) cache = None ->
  fetchItems w sanitizedFilter = Ok items ->
  fetchRoadmapItemsV2 w filter cache =
  (Ok items,
   cacheStore (cacheKeyOf sanitizedFilter)
     {| data := items; timestamp := now_update w; filter := sanitizedFilter |} cache).
Proof.
  intros Hsan Hmiss Hitems. unfold fetchRoadmapItemsV2.
  now rewrite Hsan, Hmiss, Hitems.
Qed.

(** A lookup that finds an entry younger than five minutes answers the
    fetch, whatever else the cache holds. *)
Lemma fetch_hit
    (w : World) (filter sanitizedFilter : option string) (entry : CacheEntry)
    (cache : Cache) :
  sanitizeOptional filter = Ok sanitizedFilter ->
  JsMap.get (cacheKeyOf sanitizedFilter) cache = Some entry ->
  now_check w - timestamp entry < MAX_CACHE_AGE_MS ->
  fetchRoadmapItemsV2 w filter cache = (Ok (data entry), cache).
Proof.
  intros Hsan Hget Hage. unfold fetchRoadmapItemsV2, cacheLookup.
  rewrite Hsan, Hget. apply Z.ltb_lt in Hage. now rewrite Hage.
Qed.

Lemma size_set_le (key : string) (entry : CacheEntry) (cache : Cache) :
  JsMap.size (JsMap.set key entry cache) <= JsMap.size cache + 1.
Proof.
  destruct (in_dec string_dec key (JsMap.keys cache)) as [Hin|Hout].
  - rewrite JsMapFacts.size_set_present by assumption. lia.
  - rewrite JsMapFacts.size_set_fresh by assumption. lia.
Qed.

(** Stores under other keys leave an entry alone while the cache does not
    outgrow its 50 entries. *)
Lemma storeAll_keeps
    (key : string) (stores : list (string * CacheEntry)) (cache : Cache) :
  Forall (fun kv => fst kv <> key) stores ->
  JsMap.size cache + Z.of_nat (List.length stores) <= 50 ->
  JsMap.get key (storeAll stores cache) = JsMap.get key cache.
Proof.
  revert cache. induction stores as [|[k e] stores IH]; intros cache Hother Hfits.
  - reflexivity.
  - inversion Hother as [|? ? Hk Hrest]; subst. cbn [fst] in Hk.
    change (storeAll ((k, e) :: stores) cache)
      with (storeAll stores (cacheStore k e cache)).
    pose proof (size_set_le k e cache) as Hle.
    assert (Hlen : Z.of_nat (List.length ((k, e) :: stores)) =
                   Z.of_nat (List.length stores) + 1) by (cbn [List.length]; lia).
    assert (Hstore : cacheStore k e cache = JsMap.set k e cache).
    { rewrite cacheStore_eq.
      destruct (Z.ltb_spec 50 (JsMap.size (JsMap.set k e cache))); [lia | reflexivity]. }
    rewrite Hstore, IH by (try assumption; lia).
    now apply JsMapFacts.get_set_other.
Qed.

(** X1. The cache entry belongs to the cache key, not to the filter as the
    caller wrote it.  A fetch that missed and succeeded leaves its items
    under the key.  The entry stays through later stores under other keys
    while the cache does not outgrow its 50 entries.  In whatever cache
    holds it, and while it is younger than five minutes, any filter with the
    same cache key is answered with these items, without a request and
    without a change of the cache.  The key of "no filter" is the string
    ["all"], which a filter can also be. *)
Theorem same_key_shares_entry
    (w1 w2 : World) (filter1 filter2 sanitized1 sanitized2 : option string)
    (cache : Cache) (items : list RoadmapItem) :
  cacheOk cache ->
  sanitizeOptional filter1 = Ok sanitized1 ->
  sanitizeOptional filter2 = Ok sanitized2 ->
  cacheKeyOf sanitized1 = cacheKeyOf sanitized2 ->
  cacheLookup (now_check w1) (cacheKeyOf sanitized1) cache = None ->
  fetchItems w1 sanitized1 = Ok items ->
  now_check w2 - now_update w1 < MAX_CACHE_AGE_MS ->
  let key := cacheKeyOf sanitized1 in
  let entry := {| data := items; timestamp := now_update w1; filter := sanitized1 |} in
  let cache1 := snd (fetchRoadmapItemsV2 w1 filter1 cache) in
  fetchRoadmapItemsV2 w1 filter1 cache = (Ok items, cache1) /\
  JsMap.get key cache1 = Some entry /\
  (forall stores : list (string * CacheEntry),
     Forall (fun kv => fst kv <> key) stores ->
     JsMap.size cache1 + Z.of_nat (List.length stores) <= 50 ->
     JsMap.get key (storeAll stores cache1) = Some entry) /\
  (forall cache2 : Cache,
     JsMap.get key cache2 = Some entry ->
     fetchRoadmapItemsV2 w2 filter2 cache2 = (Ok items, cache2)).
Proof.
  intros Hok H1 H2 Hkey Hmiss Hitems Hage key entry cache1.
  pose proof (fetch_miss_ok w1 filter1 sanitized1 cache items H1 Hmiss Hitems) as Hfirst.
  assert (Hget : JsMap.get key cache1 = Some entry).
  { unfold cache1. rewrite Hfirst. cbn [snd]. now apply cacheStore_get_same. }
  split; [unfold cache1; now rewrite Hfirst|].
  split; [exact Hget|]. split.
  - intros stores Hother Hfits. now rewrite storeAll_keeps.
  - intros cache2 Hget2. unfold key in Hget2. rewrite Hkey in Hget2.
    exact (fetch_hit w2 filter2 sanitized2 entry cache2 H2 Hget2 Hage).
Qed.

Lemma same_key_shares_entry_witness :
  let w1 := constWorld 0 (Resolved (okResponse (sampleItems 3))) in
  let w2 := constWorld 1000 Aborted in
  let cache1 := snd (fetchRoadmapItemsV2 w1 None JsMap.empty) in
  let cache2 := storeAll (map sampleEntry (seq 0 49)) cache1 in
  fetchRoadmapItemsV2 w1 None JsMap.empty = (Ok (sampleItems 3), cache1) /\
  fetchRoadmapItemsV2 w2 (Some " all;") cache1 = (Ok (sampleItems 3), cache1) /\
  fetchRoadmapItemsV2 w2 (Some " all;") cache2 = (Ok (sampleItems 3), cache2).
Proof.
  pose (w1 := constWorld 0 (Resolved (okResponse (sampleItems 3)))).
  pose (w2 := constWorld 1000 Aborted).
  assert (Hok : cacheOk JsMap.empty)
    by (split; [constructor | unfold JsMap.size; simpl; lia]).
  assert (Hage : now_check w2 - now_update w1 < MAX_CACHE_AGE_MS) by reflexivity.
  destruct (same_key_shares_entry w1 w2 None (Some " all;") None (Some "all")
              JsMap.empty (sampleItems 3) Hok eq_refl eq_refl eq_refl eq_refl eq_refl Hage)
    as (Hfirst & Hget & Hkeeps & Hhit).
  split; [exact Hfirst|]. split.
  - exact (Hhit _ Hget).
  - apply Hhit. apply Hkeeps.
    + repeat constructor; discriminate.
    + vm_compute. discriminate.
Defined.

(** A handler's result is a function of its arguments and of what the fetch
    returned. *)
Lemma callTool_result (call : ToolCall) (w w' : World) (cache cache' : Cache) :
  fst (fetchRoadmapItemsV2 w (builtFilter call) cache) =
  fst (fetchRoadmapItemsV2 w' (builtFilter call) cache') ->
  fst (callTool call w cache) = fst (callTool call w' cache').
Proof.
  destruct call; unfold callTool, builtFilter;
    [ unfold get_roadmap_items | unfold search_roadmap | unfold get_roadmap_item
    | unfold filter_by_product | unfold filter_by_release_phase
    | unfold filter_by_status | unfold filter_by_date | unfold filter_roadmap ];
    cbv zeta;
    match goal with
    | |- fst (fetchRoadmapItemsV2 ?w ?f ?c) = fst (fetchRoadmapItemsV2 ?w' ?f ?c') -> _ =>
        destruct (fetchRoadmapItemsV2 w f c) as [[items|e] c1];
        destruct (fetchRoadmapItemsV2 w' f c') as [[items'|e'] c1']
    end; cbn [fst]; intros H; try discriminate; injection H as <-; try reflexivity.
  destruct items; reflexivity.
Qed.

(** X2. A call that missed the cache and fetched leaves its items under its
    cache key.  In whatever cache still holds that entry, the same call made
    less than five minutes later returns the same result, whatever the
    upstream would answer now, and leaves the cache as it is; the entry is
    still held after stores under other keys while the cache does not
    outgrow its 50 entries.  This holds for results flagged as errors too:
    the "not found" of [get_roadmap_item] is repeated from the cached empty
    list. *)
Theorem repeated_call_is_served_from_cache
    (call : ToolCall) (w1 w2 : World) (sanitizedFilter : option string)
    (cache : Cache) (items : list RoadmapItem) :
  cacheOk cache ->
  sanitizeOptional (builtFilter call) = Ok sanitizedFilter ->
  cacheLookup (now_check w1) (cacheKeyOf sanitizedFilter) cache = None ->
  fetchItems w1 sanitizedFilter = Ok items ->
  now_check w2 - now_update w1 < MAX_CACHE_AGE_MS ->
  let key := cacheKeyOf sanitizedFilter in
  let entry :=
    {| data := items; timestamp := now_update w1; filter := sanitizedFilter |} in
  let cache1 := snd (callTool call w1 cache) in
  JsMap.get key cache1 = Some entry /\
  (forall cache2 : Cache,
     JsMap.get key cache2 = Some entry ->
     callTool call w2 cache2 = (fst (callTool call w1 cache), cache2)) /\
  (forall stores : list (string * CacheEntry),
     Forall (fun kv => fst kv <> key) stores ->
     JsMap.size cache1 + Z.of_nat (List.length stores) <= 50 ->
     callTool call w2 (storeAll stores cache1) =
     (fst (callTool call w1 cache), storeAll stores cache1)).
Proof.
  intros Hok Hsan Hmiss Hitems Hage key entry cache1.
  pose proof (fetch_miss_ok w1 (builtFilter call) sanitizedFilter cache items
                Hsan Hmiss Hitems) as Hfirst.
  assert (Hc : cache1 = cacheStore key entry cache).
  { unfold cache1. rewrite callTool_cache, Hfirst. reflexivity. }
  assert (Hget : JsMap.get key cache1 = Some entry).
  { rewrite Hc. now apply cacheStore_get_same. }
  assert (Hhit : forall cache2 : Cache,
             JsMap.get key cache2 = Some entry ->
             callTool call w2 cache2 = (fst (callTool call w1 cache), cache2)).
  { intros cache2 Hget2.
    pose proof (fetch_hit w2 (builtFilter call) sanitizedFilter entry cache2
                  Hsan Hget2 Hage) as Hsecond.
    rewrite (surjective_pairing (callTool call w2 cache2)). f_equal.
    - apply callTool_result. now rewrite Hsecond, Hfirst.
    - now rewrite callTool_cache, Hsecond. }
  split; [exact Hget|]. split; [exact Hhit|].
  intros stores Hother Hfits. apply Hhit. now rewrite storeAll_keeps.
Qed.

Lemma repeated_call_is_served_from_cache_witness :
  let w1 := constWorld 0 (Resolved (okResponse [])) in
  let w2 := constWorld 299999 (Resolved (okResponse (sampleItems 1))) in
  let cache1 := snd (callTool (GetRoadmapItem "999999999") w1 JsMap.empty) in
  let cache2 := storeAll (map sampleEntry (seq 0 49)) cache1 in
  callTool (GetRoadmapItem "999999999") w2 cache2 =
  ({| content := Text "No roadmap item found with ID: 999999999"; isError := true |},
   cache2).
Proof.
  pose (w1 := constWorld 0 (Resolved (okResponse []))).
  pose (w2 := constWorld 299999 (Resolved (okResponse (sampleItems 1)))).
  assert (Hok : cacheOk JsMap.empty)
    by (split; [constructor | unfold JsMap.size; simpl; lia]).
  assert (Hage : now_check w2 - now_update w1 < MAX_CACHE_AGE_MS) by reflexivity.
  destruct (repeated_call_is_served_from_cache (GetRoadmapItem "999999999") w1 w2
              (Some "id eq 999999999") JsMap.empty [] Hok eq_refl eq_refl eq_refl Hage)
    as (_ & _ & Hkeeps).
  apply Hkeeps.
  - repeat constructor; discriminate.
  - vm_compute. discriminate.
Defined.

(** X3. Storing again under a key that is already cached updates the entry in
    place: the key keeps its rank in the eviction order.  In a full cache,
    the oldest key is evicted by the next new key even if it was refreshed
    just before. *)
Theorem refresh_keeps_eviction_rank
    (k0 knew : string) (e0 refreshed enew : CacheEntry) (rest : Cache) :
  JsMap.wf ((k0, e0) :: rest) ->
  JsMap.size ((k0, e0) :: rest) = 50 ->
  JsMap.get knew ((k0, e0) :: rest) = None ->
  let cache1 := cacheStore k0 refreshed ((k0, e0) :: rest) in
  let cache2 := cacheStore knew enew cache1 in
  cache1 = (k0, refreshed) :: rest /\
  cache2 = (rest ++ [(knew, enew)])%list /\
  JsMap.get k0 cache2 = None.
Proof.
  intros Hwf Hsize Hnew cache1 cache2.
  assert (H1 : cache1 = (k0, refreshed) :: rest).
  { unfold cache1. rewrite cacheStore_eq. simpl JsMap.set.
    rewrite String.eqb_refl.
    rewrite JsMapFacts.size_cons in *.
    destruct (50 <? JsMap.size rest + 1) eqn:E; [apply Z.ltb_lt in E; lia | reflexivity]. }
  apply JsMapFacts.get_None_iff in Hnew.
  assert (Hfresh : ~ In knew (JsMap.keys ((k0, refreshed) :: rest))) by exact Hnew.
  assert (H2 : cache2 = (rest ++ [(knew, enew)])%list).
  { unfold cache2. rewrite H1, cacheStore_eq.
    rewrite JsMapFacts.size_set_fresh, JsMapFacts.set_fresh by assumption.
    rewrite JsMapFacts.size_cons in *.
    destruct (50 <? JsMap.size rest + 1 + 1) eqn:E; [reflexivity|].
    apply Z.ltb_ge in E. lia. }
  split; [exact H1|]. split; [exact H2|].
  rewrite H2. destruct (JsMapFacts.wf_tail k0 e0 rest Hwf) as [_ Hk0].
  apply JsMapFacts.get_None_iff in Hk0.
  rewrite JsMapFacts.get_app_l by assumption.
  simpl. destruct (String.eqb_spec knew k0) as [->|_]; [|reflexivity].
  exfalso. apply Hnew. simpl. now left.
Qed.

Lemma refresh_keeps_eviction_rank_witness :
  let rest := map sampleEntry (seq 1 49) in
  let cache := sampleEntry 0 :: rest in
  let cache2 := cacheStore "all" (snd (sampleEntry 50))
                  (cacheStore "id eq 0" (snd (sampleEntry 51)) cache) in
  JsMap.get "id eq 0" cache2 = None /\ JsMap.size cache2 = 50.
Proof.
  destruct (refresh_keeps_eviction_rank "id eq 0" "all" (snd (sampleEntry 0))
              (snd (sampleEntry 51)) (snd (sampleEntry 50))
              (map sampleEntry (seq 1 49))) as (_ & H2 & Hgone).
  - apply distinct_NoDup. vm_compute. reflexivity.
  - reflexivity.
  - vm_compute. reflexivity.
  - split; [exact Hgone|]. vm_compute. reflexivity.
Defined.

(* ------------------------------------------------------------------ *)
(** * The operational endpoints *)

Lemma nth_statsEntries (clock : nat -> Z) (k i : nat) (cache : Cache) :
  nth_error (statsEntries clock k cache) i =
  match nth_error cache i with
  | Some (key, value) =>
      Some {| Stats.filter := key;
              Stats.itemCount := Z.of_nat (List.length (data value));
              Stats.age := clock (k + 2 * i)%nat - timestamp value;
              Stats.ageMinutes := (clock (S (k + 2 * i)) - timestamp value) / 60000 |}
  | None => None
  end.
Proof.
  revert k i. induction cache as [|[key value] rest IH]; intros k i.
  - now destruct i.
  - destruct i as [|i]; simpl statsEntries; cbn [nth_error].
    + now rewrite Nat.add_0_r.
    + rewrite IH. destruct (nth_error rest i) as [[key' value']|]; [|reflexivity].
      now replace (S (S k) + 2 * i)%nat with (k + 2 * S i)%nat by lia.
Qed.

Lemma map_filter_statsEntries (clock : nat -> Z) (k : nat) (cache : Cache) :
  map Stats.filter (statsEntries clock k cache) = JsMap.keys cache.
Proof.
  revert k. induction cache as [|[key value] rest IH]; intros k; [reflexivity|].
  simpl. now rewrite IH.
Qed.

Lemma wf_nth_get (cache : Cache) (i : nat) (key : string) (value : CacheEntry) :
  JsMap.wf cache -> nth_error cache i = Some (key, value) ->
  JsMap.get key cache = Some value.
Proof.
  revert i. induction cache as [|[k v] rest IH]; intros i Hwf Hnth.
  - now destruct i.
  - destruct i as [|i]; simpl in *.
    + injection Hnth as -> ->. now rewrite String.eqb_refl.
    + destruct (JsMapFacts.wf_tail k v rest Hwf) as [Hrest Hk].
      destruct (String.eqb_spec k key) as [->|_]; [|now apply (IH i)].
      apply JsMapFacts.get_None_iff in Hk. exfalso. apply Hk.
      apply nth_error_In in Hnth.
      change key with (fst (key, value)). now apply in_map.
Qed.

(** X4. [/cache/stats] lists the cache as it is: one entry per key, in the
    order in which keys are evicted (the first entry listed is the one the
    next new key evicts from a full cache); the entry found at the listed
    key has the listed item count and is still served exactly when the
    listed age is below 300000; [ageMinutes] is not below the whole minutes
    of [age] when the clock does not go back between the two readings.
    [/cache/clear] reports the size that [/cache/stats] showed and leaves
    an empty cache. *)
Theorem cache_stats_list_the_cache (clock : nat -> Z) (cache : Cache) :
  JsMap.wf cache ->
  let stats := cacheStats clock cache in
  Stats.size stats = Z.of_nat (List.length (Stats.entries stats)) /\
  map Stats.filter (Stats.entries stats) = JsMap.keys cache /\
  (forall i e,
     nth_error (Stats.entries stats) i = Some e ->
     exists value,
       JsMap.get (Stats.filter e) cache = Some value /\
       Stats.itemCount e = Z.of_nat (List.length (data value)) /\
       cacheLookup (clock (2 * i)%nat) (Stats.filter e) cache =
         (if Stats.age e <? 300000 then Some (data value) else None) /\
       (clock (2 * i)%nat <= clock (S (2 * i)) ->
        Stats.age e / 60000 <= Stats.ageMinutes e)) /\
  (forall knew enew,
     JsMap.size cache = 50 -> JsMap.get knew cache = None ->
     JsMap.keys (cacheStore knew enew cache) =
     (tl (map Stats.filter (Stats.entries stats)) ++ [knew])%list) /\
  fst (cacheClear cache) = Stats.size stats /\
  cacheStats clock (snd (cacheClear cache)) = {| Stats.size := 0; Stats.entries := [] |}.
Proof.
  intros Hwf stats.
  assert (Hkeys : map Stats.filter (Stats.entries stats) = JsMap.keys cache)
    by apply map_filter_statsEntries.
  split.
  { rewrite <- (length_map Stats.filter), Hkeys. unfold JsMap.keys.
    now rewrite length_map. }
  split; [exact Hkeys|]. split; [|split; [|split; reflexivity]].
  - intros i e He. unfold stats, cacheStats in He. cbn [Stats.entries] in He.
    rewrite nth_statsEntries in He.
    destruct (nth_error cache i) as [[key value]|] eqn:Hnth; [|discriminate].
    injection He as <-. cbn [Stats.filter Stats.itemCount Stats.age Stats.ageMinutes].
    exists value. pose proof (wf_nth_get cache i key value Hwf Hnth) as Hget.
    split; [exact Hget|]. split; [reflexivity|]. split.
    + unfold cacheLookup. now rewrite Hget.
    + intros Hclock. apply Z.div_le_mono; [lia|].
      cbn [Nat.add Nat.mul] in Hclock |- *. lia.
  - intros knew enew Hsize Hnew. rewrite Hkeys.
    apply JsMapFacts.get_None_iff in Hnew.
    rewrite cacheStore_eq, JsMapFacts.size_set_fresh, JsMapFacts.set_fresh by assumption.
    rewrite Hsize. change (50 <? 50 + 1) with true. cbv iota.
    destruct cache as [|[k0 e0] rest]; [discriminate|].
    unfold JsMap.keys. simpl. now rewrite map_app.
Qed.

Lemma cache_stats_list_the_cache_witness :
  let cache := map sampleEntry (seq 0 3) in
  let stats := cacheStats (fun _ => 120002) cache in
  map Stats.filter (Stats.entries stats) = ["id eq 0"; "id eq 1"; "id eq 2"] /\
  map Stats.ageMinutes (Stats.entries stats) = [2; 2; 2] /\
  Stats.size stats = 3.
Proof.
  destruct (cache_stats_list_the_cache (fun _ => 120002) (map sampleEntry (seq 0 3)))
    as (Hsize & Hkeys & _).
  - apply distinct_NoDup. vm_compute. reflexivity.
  - split; [exact Hkeys|]. split; [reflexivity | exact Hsize].
Defined.

(** X5. [/health] after a start at or before [now]: the seconds are the whole
    seconds of the elapsed time, and the formatted uptime shows its whole
    hours and the whole minutes, below 60, of what is left. *)
Theorem uptime_is_split_in_hours_and_minutes (now : Z) (metrics : Metrics) :
  uptime metrics <= now ->
  let s := uptimeSeconds now metrics in
  let h := s / 3600 in
  let m := Z.rem s 3600 / 60 in
  uptimeFormatted now metrics = Js.showZ h ++ "h " ++ Js.showZ m ++ "m" /\
  1000 * s <= now - uptime metrics < 1000 * s + 1000 /\
  0 <= h /\ 0 <= m < 60 /\
  3600 * h + 60 * m <= s < 3600 * h + 60 * m + 60.
Proof.
  intros Hstart s h m. split; [reflexivity|].
  assert (Hs : 0 <= s) by (apply Z.div_pos; lia).
  unfold m, h. rewrite Z.rem_mod_nonneg by lia.
  unfold s, uptimeSeconds in *.
  set (d := now - uptime metrics) in *.
  Z.div_mod_to_equations. lia.
Qed.

Lemma uptime_is_split_in_hours_and_minutes_witness :
  uptimeFormatted 7384999 (initialMetrics 0) = "2h 3m" /\
  uptimeSeconds 7384999 (initialMetrics 0) = 7384.
Proof.
  assert (Hstart : uptime (initialMetrics 0) <= 7384999) by (simpl; lia).
  destruct (uptime_is_split_in_hours_and_minutes 7384999 (initialMetrics 0) Hstart)
    as (Hfmt & _).
  split; [exact Hfmt | reflexivity].
Defined.

(** ** Metrics *)

Module MetricsFacts.

Lemma tally_nonneg (p : McpEvent -> bool) (events : list McpEvent) : 0 <= tally p events.
Proof. induction events as [|ev es IH]; simpl; [lia|]. destruct (p ev); lia. Qed.

Lemma tally_failed_le (name : string) (events : list McpEvent) :
  tally (endsToolCall name true) events <= tally (endsToolCall name false) events.
Proof.
  induction events as [|ev es IH]; simpl; [lia|].
  destruct ev as [|[n|]|[n|]]; simpl; try lia.
  destruct (Js.truthy n && (n =? name)%string); lia.
Qed.

Lemma tally_unnamed (failedOnly : bool) (events : list McpEvent) :
  tally (endsToolCall "" failedOnly) events = 0.
Proof.
  induction events as [|ev es IH]; [reflexivity|].
  cbn [tally]. rewrite IH.
  destruct ev as [|[n|]|[n|]]; cbn [endsToolCall]; try reflexivity;
    destruct n, failedOnly; reflexivity.
Qed.

Lemma bump_bump (before : option ToolMetrics) (c1 e1 c2 e2 : Z) :
  0 <= e1 <= c1 -> 0 <= e2 <= c2 ->
  bump (bump before c1 e1) c2 e2 = bump before (c1 + c2) (e1 + e2).
Proof.
  intros H1 H2.
  assert (Heq : forall a b a' b', a = a' -> b = b' ->
            Some {| calls := a; errors := b |} = Some {| calls := a'; errors := b' |})
    by (intros; subst; reflexivity).
  unfold bump.
  destruct (Z.eqb_spec c1 0) as [E1|E1].
  - assert (e1 = 0) by lia. subst c1 e1. reflexivity.
  - destruct (Z.eqb_spec c2 0) as [E2|E2].
    + assert (e2 = 0) by lia. subst c2 e2. rewrite !Z.add_0_r.
      destruct (Z.eqb_spec c1 0); [contradiction | reflexivity].
    + destruct (Z.eqb_spec (c1 + c2) 0); [lia|].
      cbn [calls errors]. apply Heq; lia.
Qed.

Lemma tools_trackToolCall (name toolName : string) (success : bool) (metrics : Metrics) :
  JsMap.get name (tools (trackToolCall toolName success metrics)) =
  if (toolName =? name)%string
  then bump (JsMap.get name (tools metrics)) 1 (if success then 0 else 1)
  else JsMap.get name (tools metrics).
Proof.
  unfold trackToolCall. cbn [tools].
  destruct (String.eqb_spec toolName name) as [->|Hne].
  - rewrite JsMapFacts.get_set_same. unfold bump. cbn [Z.eqb].
    destruct (JsMap.get name (tools metrics)); destruct success; cbn [calls errors];
      f_equal; f_equal; lia.
  - now apply JsMapFacts.get_set_other.
Qed.

Lemma tools_mcpStep (name : string) (metrics : Metrics) (event : McpEvent) :
  JsMap.get name (tools (mcpStep metrics event)) =
  bump (JsMap.get name (tools metrics))
    (if endsToolCall name false event then 1 else 0)
    (if endsToolCall name true event then 1 else 0).
Proof.
  destruct event as [|[n|]|[n|]]; try reflexivity;
    unfold mcpStep, trackIfNamed; cbn [endsToolCall negb andb];
    destruct (Js.truthy n); try reflexivity;
    rewrite tools_trackToolCall; cbn [andb withRequests tools];
    destruct (n =? name)%string; reflexivity.
Qed.

Lemma rest_mcpStep (metrics : Metrics) (event : McpEvent) :
  requests (mcpStep metrics event) =
    {| Requests.total :=
         Requests.total (requests metrics) + (if isReceived event then 1 else 0);
       Requests.successful :=
         Requests.successful (requests metrics) + (if isHandled event then 1 else 0);
       Requests.failed :=
         Requests.failed (requests metrics) + (if isThrew event then 1 else 0) |} /\
  apiCalls (mcpStep metrics event) = apiCalls metrics /\
  uptime (mcpStep metrics event) = uptime metrics /\
  (JsMap.wf (tools metrics) -> JsMap.wf (tools (mcpStep metrics event))).
Proof.
  destruct metrics as [[t s f] tl a u].
  destruct event as [|[n|]|[n|]]; unfold mcpStep, trackIfNamed, trackToolCall;
    cbn [requests tools apiCalls uptime withRequests isReceived isHandled isThrew
         Requests.total Requests.successful Requests.failed];
    try destruct (Js.truthy n); cbn [requests tools apiCalls uptime];
    rewrite ?Z.add_0_r; repeat split; try (intros H; exact H);
    intros H; now apply JsMapFacts.wf_set.
Qed.

Lemma mcpRun_from (events : list McpEvent) (metrics : Metrics) (name : string) :
  let m := mcpRun events metrics in
  Requests.total (requests m) = Requests.total (requests metrics) + tally isReceived events /\
  Requests.successful (requests m) =
    Requests.successful (requests metrics) + tally isHandled events /\
  Requests.failed (requests m) = Requests.failed (requests metrics) + tally isThrew events /\
  apiCalls m = apiCalls metrics /\
  uptime m = uptime metrics /\
  JsMap.get name (tools m) =
    bump (JsMap.get name (tools metrics))
      (tally (endsToolCall name false) events) (tally (endsToolCall name true) events) /\
  (JsMap.wf (tools metrics) -> JsMap.wf (tools m)).
Proof.
  revert metrics. induction events as [|ev es IH]; intros metrics; cbn zeta.
  - simpl. rewrite !Z.add_0_r. repeat split; auto.
  - unfold mcpRun. cbn [fold_left]. fold (mcpRun es (mcpStep metrics ev)).
    destruct (IH (mcpStep metrics ev)) as (Ht & Hs & Hf & Ha & Hu & Hg & Hw).
    destruct (rest_mcpStep metrics ev) as (Hr & Ha' & Hu' & Hw').
    rewrite Ht, Hs, Hf, Ha, Hu, Hg, Hr, Ha', Hu', tools_mcpStep.
    cbn [Requests.total Requests.successful Requests.failed tally].
    repeat split; try lia; auto.
    rewrite bump_bump.
    + reflexivity.
    + destruct ev as [|[n|]|[n|]]; cbn [endsToolCall negb andb]; try lia;
        destruct (Js.truthy n && (n =? name)%string); lia.
    + pose proof (tally_failed_le name es).
      pose proof (tally_nonneg (endsToolCall name true) es). lia.
Qed.

End MetricsFacts.

(** X6. The counters of [/metrics] after any interleaving of arrivals and
    completions, from the start of the process: [total] counts the requests
    that arrived, [successful] and [failed] those whose transport finished
    or threw; a tool has an entry once a finished request named it, with as
    many [calls] as such requests and as many [errors] as those that threw,
    so [0 <= errors <= calls]; the [api] counters are never touched. *)
Theorem metrics_count_the_requests (events : list McpEvent) (startedAt : Z) (name : string) :
  let m := mcpRun events (initialMetrics startedAt) in
  let c := tally (endsToolCall name false) events in
  let e := tally (endsToolCall name true) events in
  requests m =
    {| Requests.total := tally isReceived events;
       Requests.successful := tally isHandled events;
       Requests.failed := tally isThrew events |} /\
  apiCalls m = {| ApiCalls.total := 0; ApiCalls.cached := 0; ApiCalls.failed := 0 |} /\
  uptime m = startedAt /\
  JsMap.get name (tools m) = (if c =? 0 then None else Some {| calls := c; errors := e |}) /\
  0 <= e <= c /\
  JsMap.get "" (tools m) = None /\
  JsMap.wf (tools m).
Proof.
  intros m c e.
  destruct (MetricsFacts.mcpRun_from events (initialMetrics startedAt) name)
    as (Ht & Hs & Hf & Ha & Hu & Hg & Hw).
  fold m in Ht, Hs, Hf, Ha, Hu, Hg, Hw. cbn in Ht, Hs, Hf.
  split.
  { destruct (requests m) as [t s f]. cbn in Ht, Hs, Hf. now subst. }
  split; [exact Ha|]. split; [exact Hu|]. split.
  { rewrite Hg. fold c e. unfold bump. cbn. destruct (c =? 0); reflexivity. }
  split.
  { split; [apply MetricsFacts.tally_nonneg | apply MetricsFacts.tally_failed_le]. }
  split; [|apply Hw; constructor].
  destruct (MetricsFacts.mcpRun_from events (initialMetrics startedAt) "")
    as (_ & _ & _ & _ & _ & Hg0 & _).
  fold m in Hg0. rewrite Hg0.
  rewrite !MetricsFacts.tally_unnamed. reflexivity.
Qed.

(** ** Request ids *)

Module RequestIdFacts.
Import StringFacts.

Lemma showZ_inj (a b : Z) : Js.showZ a = Js.showZ b -> a = b.
Proof.
  assert (Hparse : forall z,
             NilZero.int_of_string (Js.showZ z) = Some (Z.to_int z)).
  { intros z. apply NilZero.isi; destruct z; simpl; try discriminate;
      intros H; injection H; apply DecimalPos.Unsigned.to_uint_nonnil. }
  intros H. apply DecimalZ.to_int_inj.
  pose proof (Hparse a) as Ha. rewrite H, Hparse in Ha. now injection Ha.
Qed.

Lemma digits_no_dash (d : Decimal.uint) : hasDash (NilEmpty.string_of_uint d) = false.
Proof. induction d; simpl; assumption || reflexivity. Qed.

Lemma showZ_no_dash (z : Z) : 0 <= z -> hasDash (Js.showZ z) = false.
Proof.
  intros Hz. unfold Js.showZ. destruct z as [|p|p]; [reflexivity | | lia].
  simpl. unfold NilZero.string_of_uint.
  pose proof (digits_no_dash (Pos.to_uint p)).
  destruct (Pos.to_uint p); assumption || reflexivity.
Qed.

Lemma hasDash_append (s t : string) : hasDash (s ++ t) = hasDash s || hasDash t.
Proof. induction s as [|c s IH]; simpl; [reflexivity|]. now rewrite IH, orb_assoc. Qed.

Lemma afterLastDash_append (s d : string) :
  hasDash d = false -> afterLastDash (s ++ String "-" d) = d.
Proof.
  intros Hd. induction s as [|c s IH]; simpl.
  - now rewrite Hd.
  - rewrite hasDash_append. simpl. rewrite orb_true_r. exact IH.
Qed.

(** The counter can be read back from the id. *)
Lemma afterLastDash_requestId (now requestCounter : Z) :
  0 <= requestCounter ->
  afterLastDash (fst (nextRequestId now requestCounter)) = Js.showZ (requestCounter + 1).
Proof.
  intros Hc. unfold nextRequestId. cbn [fst].
  change ("req-" ++ Js.showZ now ++ "-" ++ Js.showZ (requestCounter + 1))
    with ("req-" ++ (Js.showZ now ++ String "-" (Js.showZ (requestCounter + 1)))).
  rewrite <- append_assoc.
  apply afterLastDash_append, showZ_no_dash. lia.
Qed.

Lemma requestIds_later (nows : list Z) (requestCounter : Z) (id_ : string) :
  0 <= requestCounter ->
  In id_ (requestIds nows requestCounter) ->
  exists k, requestCounter < k /\ afterLastDash id_ = Js.showZ k.
Proof.
  revert requestCounter. induction nows as [|now rest IH]; intros c Hc Hin; [contradiction|].
  cbn [requestIds] in Hin. destruct Hin as [<-|Hin].
  - exists (c + 1). split; [lia | now apply afterLastDash_requestId].
  - change (snd (nextRequestId now c)) with (c + 1) in Hin.
    destruct (IH (c + 1) ltac:(lia) Hin) as (k & Hk & Hid).
    exists k. split; [lia | assumption].
Qed.

Lemma requestIds_NoDup (nows : list Z) (requestCounter : Z) :
  0 <= requestCounter -> NoDup (requestIds nows requestCounter).
Proof.
  revert requestCounter. induction nows as [|now rest IH]; intros c Hc; [constructor|].
  cbn [requestIds]. constructor.
  - change (snd (nextRequestId now c)) with (c + 1).
    intros Hin. destruct (requestIds_later rest (c + 1) _ ltac:(lia) Hin) as (k & Hk & Hid).
    rewrite afterLastDash_requestId in Hid by assumption.
    apply showZ_inj in Hid. lia.
  - apply IH. change (snd (nextRequestId now c)) with (c + 1). lia.
Qed.

End RequestIdFacts.

(** X7. The ids the logging middleware gives to the requests of one process
    are pairwise different, whatever the clock reads (even when it stands
    still or goes back), and the [n]-th request carries the number [n] after
    the last dash of its id. *)
Theorem request_ids_are_unique (nows : list Z) :
  NoDup (requestIds nows 0) /\
  List.length (requestIds nows 0) = List.length nows /\
  forall n id_,
    nth_error (requestIds nows 0) n = Some id_ ->
    afterLastDash id_ = Js.showZ (Z.of_nat n + 1).
Proof.
  split; [apply RequestIdFacts.requestIds_NoDup; lia|].
  assert (Hgen : forall c,
             0 <= c ->
             List.length (requestIds nows c) = List.length nows /\
             forall n id_,
               nth_error (requestIds nows c) n = Some id_ ->
               afterLastDash id_ = Js.showZ (c + Z.of_nat n + 1)).
  { induction nows as [|now rest IH]; intros c Hc.
    - split; [reflexivity|]. intros [|n] id_ H; discriminate.
    - cbn [requestIds]. change (snd (nextRequestId now c)) with (c + 1).
      destruct (IH (c + 1) ltac:(lia)) as [Hlen Hnth].
      split; [simpl; now rewrite Hlen|].
      intros [|n] id_ H.
      + change (Some (fst (nextRequestId now c)) = Some id_) in H.
        assert (E : fst (nextRequestId now c) = id_) by congruence.
        rewrite <- E, RequestIdFacts.afterLastDash_requestId by assumption.
        f_equal. lia.
      + change (nth_error (requestIds rest (c + 1)) n = Some id_) in H.
        rewrite (Hnth n id_ H). f_equal. lia. }
  destruct (Hgen 0 ltac:(lia)) as [Hlen Hnth].
  split; [exact Hlen|]. intros n id_ H. now rewrite (Hnth n id_ H).
Qed.

(* ------------------------------------------------------------------ *)
(** * Further properties of the sanitizer and of the request *)

(** X8. What the sanitizer returns holds no semicolon and no backslash, neither
    starts nor ends with white space, is not longer than the filter, and is
    returned unchanged when sanitized again: the cache key of a filter is a
    fixed point of the sanitizer. *)
Theorem sanitized_filter_is_clean (filter sanitized : string) :
  sanitizeODataFilter filter = Ok sanitized ->
  allOf isKept sanitized = true /\
  isWhiteSpaceOpt (Js.head sanitized) = false /\
  isWhiteSpaceOpt (lastChar sanitized) = false /\
  (String.length sanitized <= String.length filter)%nat /\
  sanitizeODataFilter sanitized = Ok sanitized.
Proof.
  unfold sanitizeODataFilter. cbv zeta.
  destruct (Js.test dangerousPatterns (stripped filter)) eqn:Htest; [discriminate|].
  intros H. injection H as <-.
  destruct (SanitizerFacts.trim_shape (Js.removeAll isSemicolonOrBackslash filter))
    as [Hh Hl].
  split; [apply SanitizerFacts.allOf_trimEnd, SanitizerFacts.allOf_trimStart,
          SanitizerFacts.allOf_removeAll|].
  split; [exact Hh|]. split; [exact Hl|]. split.
  - unfold stripped, Js.trim.
    pose proof (SanitizerFacts.length_removeAll isSemicolonOrBackslash filter).
    pose proof (SanitizerFacts.length_trimStart
                  (Js.removeAll isSemicolonOrBackslash filter)).
    pose proof (SanitizerFacts.length_trimEnd
                  (Js.trimStart (Js.removeAll isSemicolonOrBackslash filter))).
    lia.
  - now rewrite SanitizerFacts.stripped_fixed, Htest.
Qed.

Lemma sanitized_filter_is_clean_witness :
  sanitizeODataFilter "  status eq 'Launched';  " = Ok "status eq 'Launched'" /\
  sanitizeODataFilter "status eq 'Launched'" = Ok "status eq 'Launched'".
Proof.
  split; [reflexivity|].
  exact (proj2 (proj2 (proj2 (proj2
           (sanitized_filter_is_clean "  status eq 'Launched';  " "status eq 'Launched'"
              eq_refl))))).
Defined.

Module UrlFacts.
Import StringFacts.







End UrlFacts.


(* ------------------------------------------------------------------ *)
(** * Further properties of the handlers *)

Module SearchFacts.
Import StringFacts.

Lemma prefix_spec (t s : string) :
  String.prefix t s = true <-> exists b, s = t ++ b.
Proof.
  revert s. induction t as [|c t IH]; intros s.
  - split; [intros _; now exists s | intros _; now destruct s].
  - destruct s as [|d s]; [split; [discriminate | intros [b H]; discriminate]|].
    simpl. destruct (ascii_dec c d) as [->|Hne].
    + rewrite IH. split; intros [b H]; exists b; [now subst | now injection H].
    + split; [discriminate | intros [b H]; injection H as -> _; contradiction].
Qed.

Lemma includes_spec (s t : string) :
  Js.includes s t = true <-> exists a b, s = a ++ t ++ b.
Proof.
  induction s as [|c s IH].
  - destruct t as [|d t]; simpl.
    + split; [intros _; now exists "", "" | reflexivity].
    + split; [discriminate | intros (a & b & H); destruct a; discriminate].
  - cbn [Js.includes]. rewrite orb_true_iff, prefix_spec, IH. split.
    + intros [[b H]|(a & b & H)].
      * now exists "", b.
      * exists (String c a), b. simpl. now rewrite H.
    + intros (a & b & H). destruct a as [|d a].
      * left. now exists b.
      * right. simpl in H. injection H as _ H. now exists a, b.
Qed.

End SearchFacts.

(** X10. [search_roadmap] with a limit that is not negative returns the first
    [k] of the fetched items that match, in their upstream order, [k] being
    the whole part of the limit (20 when no limit is given; every match for
    [+Infinity]), and [found] is their number.  An item matches exactly when
    its title or its description, in lower case, contains the keyword in
    lower case, so an item with neither never matches. *)
Theorem search_returns_the_first_matches
    (w : World) (keyword : string) (limit : Js.number) (cache cache' : Cache)
    (items : list RoadmapItem) :
  Js.isNaN limit = false ->
  Js.ltb limit (Js.ofZ 0) = false ->
  fetchRoadmapItemsV2 w None cache = (Ok items, cache') ->
  let r := fst (search_roadmap keyword (Some limit) w cache) in
  let matching := List.filter (matchesKeyword (Js.toLowerCase keyword)) items in
  exists found,
    isError r = false /\
    field "items" r = Some (Items found) /\
    field "found" r = Some (count found) /\
    (limit = Js.Infinity false \/ exists k, 0 <= k /\ wholePart k limit = true) /\
    (forall k : Z,
       wholePart k limit = true ->
       found = firstn (Z.to_nat k) matching /\
       Z.of_nat (List.length found) = Z.min k (Z.of_nat (List.length matching))) /\
    (limit = Js.Infinity false -> found = matching) /\
    (forall item,
       In item found -> In item items /\ matchesKeyword (Js.toLowerCase keyword) item = true) /\
    (forall item,
       matchesKeyword (Js.toLowerCase keyword) item = true <->
       exists text a b,
         (title item = Some text \/ description item = Some text) /\
         Js.toLowerCase text = a ++ Js.toLowerCase keyword ++ b) /\
    field "items" (fst (search_roadmap keyword None w cache)) =
      Some (Items (firstn 20 matching)).
Proof.
  intros Hnan Hlimit Hfetch r matching.
  assert (Hno : notNegative limit) by (apply notNegative_iff; auto).
  set (found := Js.slice matching (Js.ofZ 0) limit).
  assert (Hr : r = success (Obj [("keyword", Str keyword); ("found", count found);
                                 ("items", Items found)])).
  { unfold r, search_roadmap. cbv zeta. rewrite Hfetch. reflexivity. }
  assert (Hcases : limit = Js.Infinity false \/
                   exists k, 0 <= k /\ wholePart k limit = true)
    by exact (notNegative_cases limit Hno).
  assert (Hk : forall k : Z, wholePart k limit = true ->
                             found = firstn (Z.to_nat k) matching).
  { intros k Hw. apply slice_prefix; [|assumption].
    exact (wholePart_nonneg k limit Hlimit Hw). }
  assert (Hsub : forall item, In item found -> In item matching).
  { intros item Hin. destruct Hcases as [->|(k & _ & Hw)].
    - unfold found in Hin. now rewrite slice_all in Hin.
    - rewrite (Hk k Hw) in Hin.
      rewrite <- (firstn_skipn (Z.to_nat k) matching). apply in_or_app. now left. }
  exists found. rewrite Hr.
  do 3 (split; [reflexivity|]). split; [exact Hcases|]. split.
  { intros k Hw. split; [exact (Hk k Hw)|].
    pose proof (wholePart_nonneg k limit Hlimit Hw).
    rewrite (Hk k Hw), length_firstn. lia. }
  split.
  { intros ->. apply slice_all. }
  split.
  { intros item Hin. apply Hsub in Hin. unfold matching in Hin.
    now apply filter_In in Hin. }
  split.
  { intros item. unfold matchesKeyword, fieldIncludes. rewrite orb_true_iff. split.
    - intros [H|H].
      + destruct (title item) as [t|]; [|discriminate].
        apply SearchFacts.includes_spec in H as (a & b & H). exists t, a, b. auto.
      + destruct (description item) as [t|]; [|discriminate].
        apply SearchFacts.includes_spec in H as (a & b & H). exists t, a, b. auto.
    - intros (text & a & b & [Ht|Ht] & H); rewrite Ht; [left | right];
        apply SearchFacts.includes_spec; now exists a, b. }
  unfold search_roadmap. cbv zeta. rewrite Hfetch. cbn [fst orDefault].
  fold matching.
  now rewrite (slice_prefix matching (Js.ofZ 20) 20)
    by (try lia; apply wholePart_ofZ).
Qed.

Lemma search_returns_the_first_matches_witness :
  let w := constWorld 0 (Resolved (okResponse (sampleItems 5))) in
  let r := fst (search_roadmap "COPILOT" (Some (Js.Finite 5 (-1))) w JsMap.empty) in
  field "items" r = Some (Items (sampleItems 2)) /\
  field "found" r = Some (Num 2).
Proof.
  destruct (search_returns_the_first_matches
              (constWorld 0 (Resolved (okResponse (sampleItems 5)))) "COPILOT"
              (Js.Finite 5 (-1)) JsMap.empty
              (snd (fetchRoadmapItemsV2
                      (constWorld 0 (Resolved (okResponse (sampleItems 5))))
                      None JsMap.empty))
              (sampleItems 5) eq_refl eq_refl eq_refl)
    as (found & _ & Hitems & Hfound & _ & Hk & _).
  destruct (Hk 2 eq_refl) as [Hfirst _]. subst found.
  exact (conj Hitems Hfound).
Defined.

(** X11. [filter_by_product] within its schema returns the first [k] items,
    [k] being the whole part of the limit (100 when no limit is given), never
    more than 1000, and [hasMore] tells whether items were left out. *)
Theorem product_results_are_capped
    (w : World) (product : string) (limit : option Js.number) (cache cache' : Cache)
    (items : list RoadmapItem) :
  inputSchema (FilterByProduct product limit) = true ->
  fetchRoadmapItemsV2 w (Some (productFilter product)) cache = (Ok items, cache') ->
  let r := fst (filter_by_product product limit w cache) in
  exists k,
    wholePart k (orDefault 100 limit) = true /\
    1 <= k <= 1000 /\
    let returned := firstn (Z.to_nat k) items in
    isError r = false /\
    field "items" r = Some (Items returned) /\
    field "returned" r = Some (count returned) /\
    field "total" r = Some (count items) /\
    field "hasMore" r = Some (Bool (k <? Z.of_nat (List.length items))) /\
    Z.of_nat (List.length returned) = Z.min k (Z.of_nat (List.length items)) /\
    Z.of_nat (List.length returned) <= 1000.
Proof.
  intros Hschema Hfetch r.
  set (n := orDefault 100 limit).
  assert (Hn : Js.isNaN n = false /\ Js.ltb n (Js.ofZ 1) = false /\
               Js.ltb (Js.ofZ MAX_RESULTS_LIMIT) n = false).
  { unfold n. cbn [inputSchema] in Hschema. apply andb_prop in Hschema as [_ Hl].
    destruct limit as [l|]; [|repeat split].
    cbn [optAll orDefault] in *.
    apply andb_prop in Hl as [Hl H2]. apply andb_prop in Hl as [Hnan H1].
    unfold zNumber, zMin, zMax in *.
    apply negb_true_iff in Hnan, H1, H2. auto. }
  destruct Hn as (Hnan & H1 & H2).
  assert (Hno : notNegative n) by (apply (notNegative_above n 1); [lia | assumption..]).
  destruct (notNegative_cases n Hno) as [Hinf|(k & Hk0 & Hk)];
    [rewrite Hinf in H2; discriminate|].
  pose proof (wholePart_bounds k 1 MAX_RESULTS_LIMIT n H1 H2 Hk) as Hbounds.
  unfold MAX_RESULTS_LIMIT in Hbounds.
  exists k. split; [exact Hk|]. split; [exact Hbounds|].
  intros returned.
  assert (Hlen : Z.of_nat (List.length returned) = Z.min k (Z.of_nat (List.length items))).
  { unfold returned. rewrite length_firstn. lia. }
  assert (Hr : r = success (Obj [("product", Str product);
                                 ("total", count items);
                                 ("returned", count returned);
                                 ("hasMore", Bool (k <? Z.of_nat (List.length items)));
                                 ("items", Items returned)])).
  { unfold r, filter_by_product. cbv zeta. rewrite Hfetch. cbn [fst].
    fold n. rewrite (min_below n MAX_RESULTS_LIMIT) by assumption.
    rewrite (slice_prefix items n k) by assumption. fold returned.
    do 5 f_equal. rewrite Hlen.
    destruct (Z.ltb_spec k (Z.of_nat (List.length items)));
      destruct (Z.ltb_spec (Z.min k (Z.of_nat (List.length items)))
                  (Z.of_nat (List.length items))); try reflexivity; lia. }
  rewrite Hr. repeat (split; [reflexivity|]). split; [exact Hlen | lia].
Qed.

Lemma product_results_are_capped_witness :
  let w := constWorld 0 (Resolved (okResponse (sampleItems 120))) in
  let r := fst (filter_by_product "Microsoft Teams" None w JsMap.empty) in
  field "returned" r = Some (Num 100) /\
  field "total" r = Some (Num 120) /\
  field "hasMore" r = Some (Bool true).
Proof.
  destruct (product_results_are_capped
              (constWorld 0 (Resolved (okResponse (sampleItems 120))))
              "Microsoft Teams" None JsMap.empty
              (snd (fetchRoadmapItemsV2
                      (constWorld 0 (Resolved (okResponse (sampleItems 120))))
                      (Some (productFilter "Microsoft Teams")) JsMap.empty))
              (sampleItems 120) eq_refl eq_refl)
    as (k & Hk & _ & _ & _ & Hret & Htot & Hmore & _).
  apply wholePart_unique in Hk. subst k.
  exact (conj Hret (conj Htot Hmore)).
Defined.

Lemma fetch_error_cause (w : World) (f : string) (cache : Cache) (e : Exn) :
  Js.truthy f = true ->
  sanitizeODataFilter f = Ok f ->
  fst (fetchRoadmapItemsV2 w (Some f) cache) = Throw e ->
  cacheLookup (now_check w) f cache = None /\
  upstreamFailed (fetch w (requestUrl (Some f))) = true.
Proof.
  intros Htruthy Hsan. unfold fetchRoadmapItemsV2, sanitizeOptional, cacheKeyOf.
  rewrite Htruthy, Hsan, Htruthy.
  destruct (cacheLookup (now_check w) f cache); [discriminate|].
  destruct (fetchItems w (Some f)) as [items|e'] eqn:E; [discriminate|].
  intros _. split; [reflexivity|].
  destruct (upstreamFailed (fetch w (requestUrl (Some f)))) eqn:Eu; [reflexivity|].
  unfold fetchItems, fetchWithTimeout, upstreamFailed in *.
  destruct (fetch w (requestUrl (Some f))) as [response| |]; try discriminate.
  destruct (ok response); simpl in *; [|discriminate].
  destruct (json response); discriminate.
Qed.

(** X12. The filters of [filter_by_status] and [filter_by_release_phase] pass
    the sanitizer unchanged for every value of the enumerations, so these
    tools are never rejected for their argument.  With upstream bodies as
    [Response] has them (an array of items under [value], or no [value]),
    they return an error only after a cache miss and a failed upstream
    call. *)
Theorem enumerated_filters_are_never_rejected
    (w : World) (status : Status) (phase : Phase) (limit : option Js.number) (cache : Cache) :
  sanitizeODataFilter (statusFilter status) = Ok (statusFilter status) /\
  sanitizeODataFilter (phaseFilter phase) = Ok (phaseFilter phase) /\
  (isError (fst (filter_by_status status limit w cache)) = true ->
   cacheLookup (now_check w) (statusFilter status) cache = None /\
   upstreamFailed (fetch w (requestUrl (Some (statusFilter status)))) = true) /\
  (isError (fst (filter_by_release_phase phase limit w cache)) = true ->
   cacheLookup (now_check w) (phaseFilter phase) cache = None /\
   upstreamFailed (fetch w (requestUrl (Some (phaseFilter phase)))) = true).
Proof.
  assert (Hs : sanitizeODataFilter (statusFilter status) = Ok (statusFilter status))
    by (destruct status; vm_compute; reflexivity).
  assert (Hp : sanitizeODataFilter (phaseFilter phase) = Ok (phaseFilter phase))
    by (destruct phase; vm_compute; reflexivity).
  split; [exact Hs|]. split; [exact Hp|]. split.
  - unfold filter_by_status. cbv zeta.
    destruct (fetchRoadmapItemsV2 w (Some (statusFilter status)) cache)
      as [[items|e] c'] eqn:E; [discriminate|].
    intros _. apply (fetch_error_cause w (statusFilter status) cache e);
      [now destruct status | exact Hs | now rewrite E].
  - unfold filter_by_release_phase. cbv zeta.
    destruct (fetchRoadmapItemsV2 w (Some (phaseFilter phase)) cache)
      as [[items|e] c'] eqn:E; [discriminate|].
    intros _. apply (fetch_error_cause w (phaseFilter phase) cache e);
      [now destruct phase | exact Hp | now rewrite E].
Qed.

(** X13. Consecutive pages of [get_roadmap_items] tile the fetched items.
    With [a] the whole part of [offset] and [b] the whole part of
    [offset + limit] (for integers, the numbers themselves, and [a < b]), a
    page is what lies between the first [a] items and the items from [b] on,
    so the next page starts at [b]; while [hasMore] is true the page holds
    [b - a] items, and when it is false the pages up to this one hold every
    item. *)
Theorem pages_tile_the_items
    (w : World) (limit offset : Js.number) (a b : Z) (filter : option string)
    (cache cache' : Cache) (items : list RoadmapItem) :
  inputSchema (GetRoadmapItems (Some limit) (Some offset) filter) = true ->
  fetchRoadmapItemsV2 w filter cache = (Ok items, cache') ->
  wholePart a offset = true ->
  wholePart b (Js.add (Js.max (Js.ofZ 0) offset) limit) = true ->
  let r := fst (get_roadmap_items (Some limit) (Some offset) filter w cache) in
  exists page,
    field "items" r = Some (Items page) /\
    (firstn (Z.to_nat a) items ++ page ++ skipn (Z.to_nat (Z.max a b)) items)%list
      = items /\
    (field "hasMore" r = Some (Bool true) ->
     Z.of_nat (List.length page) = Z.max 0 (b - a)) /\
    (field "hasMore" r = Some (Bool false) ->
     (firstn (Z.to_nat a) items ++ page)%list = items) /\
    (forall l o : Z,
       limit = Js.ofZ l -> offset = Js.ofZ o -> o + l < 2 ^ 53 ->
       a = o /\ b = o + l /\ a < b).
Proof.
  intros Hschema Hfetch Ha Hb r.
  destruct (pagination_result w limit offset filter cache cache' items Hschema Hfetch)
    as (Hr & Hno & Hns & Heqb & Hint).
  destruct (pagination_page limit offset filter items a b Hschema Ha Hb)
    as (Ha0 & Hb0 & Hpage).
  fold r in Hr. rewrite Hpage in Hr.
  set (page := firstn (Z.to_nat (b - a)) (skipn (Z.to_nat a) items)) in *.
  assert (Hmore : field "hasMore" r = Some (Bool (b <? Z.of_nat (List.length items)))).
  { rewrite Hr. cbn. now rewrite (wholePart_ltb b _ _ Hb). }
  assert (Hitems : field "items" r = Some (Items page)) by (rewrite Hr; reflexivity).
  exists page. split; [exact Hitems|].
  assert (Hrest : skipn (Z.to_nat (Z.max a b)) items =
                  skipn (Z.to_nat (b - a)) (skipn (Z.to_nat a) items)).
  { rewrite skipn_skipn. f_equal. lia. }
  split; [|split; [|split]].
  - rewrite Hrest. unfold page. now rewrite firstn_skipn, firstn_skipn.
  - rewrite Hmore. intros H. injection H as H. apply Z.ltb_lt in H.
    unfold page. rewrite length_firstn, length_skipn. lia.
  - rewrite Hmore. intros H. injection H as H. apply Z.ltb_ge in H.
    unfold page.
    rewrite (@firstn_all2 _ (Z.to_nat (b - a)) (skipn (Z.to_nat a) items))
      by (rewrite length_skipn; lia).
    apply firstn_skipn.
  - intros l o -> -> Hsum.
    destruct (pagination_integers l o filter Hschema Hsum) as (Hl & _ & Hv & Hs).
    rewrite Hs in Hb. apply wholePart_unique in Ha, Hb. lia.
Qed.

Lemma pages_tile_the_items_witness :
  let w := constWorld 0 (Resolved (okResponse (sampleItems 23))) in
  let r :=
    fst (get_roadmap_items (Some (Js.ofZ 10)) (Some (Js.ofZ 20)) None w JsMap.empty) in
  exists page,
    field "items" r = Some (Items page) /\
    (firstn 20 (sampleItems 23) ++ page)%list = sampleItems 23.
Proof.
  destruct (pages_tile_the_items
              (constWorld 0 (Resolved (okResponse (sampleItems 23))))
              (Js.ofZ 10) (Js.ofZ 20) 20 30 None JsMap.empty
              (snd (fetchRoadmapItemsV2
                      (constWorld 0 (Resolved (okResponse (sampleItems 23))))
                      None JsMap.empty))
              (sampleItems 23) eq_refl eq_refl eq_refl eq_refl)
    as (page & Hitems & _ & _ & Hlast & _).
  exists page. split; [exact Hitems|].
  exact (Hlast eq_refl).
Defined.
